(** * VXP track-and-balance solver: [vxp/solver.py]

    A shallow embedding of the evaluation engine of the BO105 training
    simulator and the properties its specification states about it.

    Numbers.  Every number the solver handles is a Python [float].  The
    embedding reads them as exact rationals ([Q]): each decimal literal of
    the source denotes its decimal value, [+ - * /] are the field
    operations, comparisons are the order of [Q].  Binary rounding,
    infinities and NaN are outside this model.  Results that the source
    compares with [==] are compared with [Qeq] here.

    Errors.  Subscripting a dict with a missing key raises [KeyError];
    [max]/[min] of an empty sequence raise [ValueError].  Fallible code
    lives in the [result] monad below. *)

From Stdlib Require Import QArith Qround Qminmax Qabs Lqa Lia SpecFloat.
From stdpp Require Import base strings gmap list.

Local Open Scope string_scope.
Local Open Scope Q_scope.

(** ** The fragment of the Python runtime the solver uses *)

Module Py.

Inductive exn : Type :=
| KeyError (key : string)
| ValueError
| OverflowError.

Inductive result (A : Type) : Type :=
| Ok (a : A)
| Raise (e : exn).
Arguments Ok {A} a.
Arguments Raise {A} e.

Definition bind {A B} (c : result A) (k : A -> result B) : result B :=
  match c with
  | Ok a => k a
  | Raise e => Raise e
  end.

(** [x > y] and [x < y] on floats. *)
Definition gt (x y : Q) : bool :=
  match Qcompare x y with Gt => true | _ => false end.

Definition lt (x y : Q) : bool :=
  match Qcompare x y with Lt => true | _ => false end.

(** [x % y] on floats: the remainder takes the sign of the divisor.  The
    divisor is a non-zero literal at each use in the solver. *)
Definition float_mod (x y : Q) : Q :=
  x - inject_Z (Qfloor (x / y)) * y.

(** [round(x)] with one argument: the nearest [int], halves to the even
    neighbour. *)
Definition round (x : Q) : Z :=
  let f := Qfloor x in
  match Qcompare (x - inject_Z f) (1 # 2) with
  | Lt => f
  | Gt => (f + 1)%Z
  | Eq => if Z.even f then f else (f + 1)%Z
  end.

(** [max(a, b)] and [min(a, b)]: the first argument is kept unless the
    second one is strictly better. *)
Definition max2 (a b : Q) : Q := if gt b a then b else a.
Definition min2 (a b : Q) : Q := if lt b a then b else a.

(** The loop of [max(iterable, key=...)]: [best] is the item kept so
    far and [bestv] its key. *)
Fixpoint max_loop {A} (key : A -> result Q) (best : A) (bestv : Q)
    (l : list A) : result A :=
  match l with
  | [] => Ok best
  | x :: l' =>
      bind (key x) (fun v =>
        if gt v bestv then max_loop key x v l'
        else max_loop key best bestv l')
  end.

Definition max_key {A} (key : A -> result Q) (l : list A) : result A :=
  match l with
  | [] => Raise ValueError
  | x :: l' => bind (key x) (fun v => max_loop key x v l')
  end.

Fixpoint min_loop {A} (key : A -> result Q) (best : A) (bestv : Q)
    (l : list A) : result A :=
  match l with
  | [] => Ok best
  | x :: l' =>
      bind (key x) (fun v =>
        if lt v bestv then min_loop key x v l'
        else min_loop key best bestv l')
  end.

Definition min_key {A} (key : A -> result Q) (l : list A) : result A :=
  match l with
  | [] => Raise ValueError
  | x :: l' => bind (key x) (fun v => min_loop key x v l')
  end.

(** [max(vals)] and [min(vals)] of a list of floats. *)
Definition max_seq (l : list Q) : result Q := max_key Ok l.
Definition min_seq (l : list Q) : result Q := min_key Ok l.

(** [sum(gen)]: starts from [0] and adds the items left to right. *)
Fixpoint sum_from (acc : Q) (l : list (result Q)) : result Q :=
  match l with
  | [] => Ok acc
  | c :: l' => bind c (fun v => sum_from (acc + v) l')
  end.

Definition sum (l : list (result Q)) : result Q := sum_from 0 l.

(** [[f(x) for x in l]] with a fallible body. *)
Fixpoint list_comp {A B} (f : A -> result B) (l : list A)
    : result (list B) :=
  match l with
  | [] => Ok []
  | x :: l' =>
      bind (f x) (fun y => bind (list_comp f l') (fun ys => Ok (y :: ys)))
  end.

(** [for x in l: acc = body(acc, x)] with a fallible body. *)
Fixpoint for_each {A S} (body : S -> A -> result S) (l : list A) (s : S)
    : result S :=
  match l with
  | [] => Ok s
  | x :: l' => bind (body s x) (for_each body l')
  end.

(** A [dict] whose iteration order matters: the items in insertion
    order, keys pairwise distinct. *)
Definition dict (V : Type) : Type := list (string * V).

Definition keys {V} (d : dict V) : list string := map fst d.

(** [k in d] *)
Definition contains {V} (d : dict V) (k : string) : bool :=
  bool_decide (k ∈ keys d).

(** [d[k]] *)
Fixpoint getitem {V} (d : dict V) (k : string) : result V :=
  match d with
  | [] => Raise (KeyError k)
  | (k', v) :: d' => if decide (k = k') then Ok v else getitem d' k
  end.

(** [m[k]] for a dict that is only ever subscripted. *)
Definition subscript {V} (m : gmap string V) (k : string) : result V :=
  match m !! k with
  | Some v => Ok v
  | None => Raise (KeyError k)
  end.

End Py.

Import Py.

Notation "'let*' x ':=' c 'in' k" := (Py.bind c (fun x => k))
  (at level 10, x name, c at level 100, k at level 200).

(** ** [vxp/types.py] *)

(** Modelled from the spec: the [balance] field of a [Measurement]
    ([vxp/types.py] is not part of the sources): a vibration reading with
    an amplitude in inches per second and a phase in degrees. *)
Record BalanceReading : Type := {
  amp_ips : Q;
  phase_deg : Q
}.

(** Modelled from the spec: the [Measurement] record of [vxp/types.py]:
    [track_mm] maps a blade to its tracking deviation in millimetres,
    [balance] is the vibration reading.  The record itself does not force
    the four blade keys to be there; [well_formed] says they are. *)
Record Measurement : Type := {
  track_mm : gmap string Q;
  balance : BalanceReading
}.

(** ** [vxp/solver.py] *)

Definition BLADES : list string := ["BLU"; "GRN"; "YEL"; "RED"].

Definition REGIMES : list string := ["GROUND"; "HOVER"; "HORIZ"].

Definition BLADE_CLOCK_DEG : gmap string Q :=
  <["GRN" := 270.0]>
    (<["BLU" := 180.0]>
      (<["RED" := 90.0]> (<["YEL" := 0.0]> ∅))).

Definition PITCHLINK_MM_PER_TURN : Q := 10.0.
Definition TRIMTAB_MMTRACK_PER_MM : Q := 15.0.
Definition BOLT_IPS_PER_GRAM : Q := 0.0020.

Definition track_limit (regime : string) : Q := 15.0.

Definition balance_limit (regime : string) : Q :=
  if decide (regime = "GROUND") then 0.20 else 0.15.

Definition acceptance_track_limit (regime : string) : Q := 20.0.
Definition procedural_track_limit (regime : string) : Q := 30.0.
Definition acceptance_balance_limit (regime : string) : Q := 0.20.
Definition procedural_balance_limit (regime : string) : Q := 0.30.

Definition track_spread (m : Measurement) : result Q :=
  let* vals := list_comp (fun b => subscript (track_mm m) b) BLADES in
  let* hi := max_seq vals in
  let* lo := min_seq vals in
  Ok (hi - lo).

(** The status codes ["DONE"], ["OK"], ["WARN"], ["STOP"]; the fifth
    outcome, Python's [None], is the [None] of [option]. *)
Inductive status : Type := DONE | OK | WARN | STOP.

Definition regime_status (regime : string) (m : option Measurement)
    : option status :=
  match m with
  | None => None
  | Some m =>
      match (let* ts := track_spread m in Ok (ts, amp_ips (balance m))) with
      | Raise _ => Some DONE
      | Ok (ts, amp) =>
          if negb (bool_decide (regime ∈ REGIMES)) then Some DONE
          else if gt ts (procedural_track_limit regime)
                  || gt amp (procedural_balance_limit regime)
          then Some STOP
          else if gt ts (acceptance_track_limit regime)
                  || gt amp (acceptance_balance_limit regime)
          then Some WARN
          else Some OK
      end
  end.

(** The [for r in REGIMES] loop of [all_ok]. *)
Fixpoint all_ok_loop (meas_by_regime : dict Measurement) (rs : list string)
    : result bool :=
  match rs with
  | [] => Ok true
  | r :: rs' =>
      if negb (contains meas_by_regime r) then Ok false
      else
        let* m := getitem meas_by_regime r in
        let* ts := track_spread m in
        if gt ts (track_limit r) then Ok false
        else
          let* m' := getitem meas_by_regime r in
          if gt (amp_ips (balance m')) (balance_limit r) then Ok false
          else all_ok_loop meas_by_regime rs'
  end.

Definition all_ok (meas_by_regime : dict Measurement) : result bool :=
  all_ok_loop meas_by_regime REGIMES.

Definition _round_quarter (x : Q) : Q := inject_Z (round (x * 4.0)) / 4.0.

(** [{b: 0.0 for b in BLADES}] *)
Definition zero_per_blade : gmap string Q :=
  foldl (fun out b => <[b := 0.0]> out) ∅ BLADES.

Definition suggest_pitchlink (meas : dict Measurement)
    : result (gmap string Q) :=
  let used := filter (fun r => contains meas r = true)
                     ["GROUND"; "HOVER"] in
  match used with
  | [] => Ok zero_per_blade
  | _ =>
      for_each (fun out b =>
          let* s := sum (map (fun r => let* m := getitem meas r in
                                       subscript (track_mm m) b) used) in
          let avg := s / inject_Z (Z.of_nat (length used)) in
          Ok (<[b := _round_quarter ((- avg) / PITCHLINK_MM_PER_TURN)]> out))
        BLADES ∅
  end.

Definition suggest_trimtabs (meas : dict Measurement)
    : result (gmap string Q) :=
  if negb (contains meas "HORIZ") then Ok zero_per_blade
  else
    for_each (fun out b =>
        let* m := getitem meas "HORIZ" in
        let* dev := subscript (track_mm m) b in
        Ok (<[b := max2 (-5.0)
                     (min2 5.0
                        (_round_quarter ((- dev) / TRIMTAB_MMTRACK_PER_MM)))]>
              out))
      BLADES ∅.

(** The local function [dist] of [suggest_weight]. *)
Definition dist (a b : Q) : Q :=
  let d := float_mod (Qabs (a - b)) 360.0 in
  min2 d (360.0 - d).

Definition suggest_weight (meas : dict Measurement) : result (string * Q) :=
  match meas with
  | [] => Ok ("YEL", 0.0)
  | _ =>
      let* worst_r := max_key (fun r => let* m := getitem meas r in
                                        Ok (amp_ips (balance m)))
                              (keys meas) in
      let* m := getitem meas worst_r in
      let amp := amp_ips (balance m) in
      let phase := phase_deg (balance m) in
      let target := float_mod (phase + 180.0) 360.0 in
      let* blade := min_key (fun bb => let* c := subscript BLADE_CLOCK_DEG bb in
                                       Ok (dist target c))
                            BLADES in
      let grams :=
        max2 5.0
          (min2 120.0
             (inject_Z (round (amp / BOLT_IPS_PER_GRAM / 5.0)) * 5.0)) in
      Ok (blade, grams)
  end.

(** ** Vocabulary of the specification *)

(** A measurement is well formed when [track_mm] has all four blade keys. *)
Definition well_formed (m : Measurement) : Prop :=
  Forall (fun b => is_Some (track_mm m !! b)) BLADES.

#[global] Instance well_formed_dec m : Decision (well_formed m).
Proof. unfold well_formed. apply _. Defined.

(** Every measurement stored in the mapping is well formed. *)
Definition all_well_formed (meas : dict Measurement) : Prop :=
  Forall (fun rm => well_formed rm.2) meas.

#[global] Instance all_well_formed_dec meas : Decision (all_well_formed meas).
Proof. unfold all_well_formed. apply _. Defined.

(** The order OK < WARN < STOP on the statuses that carry a verdict;
    [DONE] carries none and sits at the bottom. *)
Definition severity (s : status) : nat :=
  match s with
  | DONE => 0
  | OK => 0
  | WARN => 1
  | STOP => 2
  end.

(** [v] is a multiple of [step] nearest to [x]: no other multiple is
    closer, since consecutive multiples are [step] apart. *)
Definition nearest_multiple (step x v : Q) : Prop :=
  (exists k : Z, v == inject_Z k * step) /\ Qabs (v - x) <= step / 2.

(** Clamping to the closed range from [lo] to [hi]. *)
Definition clamp (lo hi x : Q) : Q := Qmax lo (Qmin hi x).


(** The circular distance of two azimuths, as the specification writes
    it: min(|a-b| mod 360, 360 - (|a-b| mod 360)). *)
Definition circular_distance (a b : Q) : Q :=
  let d := float_mod (Qabs (a - b)) 360 in
  Qmin d (360 - d).



(** The clock azimuth of a blade, read off [BLADE_CLOCK_DEG]. *)
Definition blade_clock (b : string) : Q := default 0 (BLADE_CLOCK_DEG !! b).

(** The regime [suggest_weight] binds to [worst_r]. *)
Definition worst_regime (meas : dict Measurement) : result string :=
  max_key (fun r => let* m := getitem meas r in Ok (amp_ips (balance m)))
          (keys meas).

(** The target phase [suggest_weight] computes from the measurement it
    selected. *)
Definition target_phase (m : Measurement) : Q :=
  float_mod (phase_deg (balance m) + 180.0) 360.0.

(** A measurement with the given four deviations and balance reading. *)
Definition measurement (blu grn yel red amp phase : Q) : Measurement :=
  {| track_mm :=
       <["RED" := red]>
         (<["YEL" := yel]>
           (<["GRN" := grn]> (<["BLU" := blu]> ∅)));
     balance := {| amp_ips := amp; phase_deg := phase |} |}.

(** The end-to-end scenario of the specification: all three regimes, each
    with all deviations 0, amplitude 0 and phase 0. *)
Definition all_zero : dict Measurement :=
  [("GROUND", measurement 0 0 0 0 0 0);
   ("HOVER", measurement 0 0 0 0 0 0);
   ("HORIZ", measurement 0 0 0 0 0 0)].

(** A measurement without the [YEL] key. *)
Definition measurement_no_yel : Measurement :=
  {| track_mm :=
       <["RED" := 2.0]>
         (<["GRN" := 1.0]> (<["BLU" := 0.0]> ∅));
     balance := {| amp_ips := 0.05; phase_deg := 10.0 |} |}.

(** ** The arithmetic of [suggest_weight] and [suggest_pitchlink] in
    double precision

    Python's [float] is an IEEE 754 binary64 number.  The module below
    embeds the two suggestion functions whose answers depend on how each
    operation rounds and on overflow, over the binary64 operations of the
    standard library ([SpecFloat], rounding to nearest, ties to even).
    The regime mapping, the subscripts and the [result] monad are those of
    the rational embedding above. *)

Module F64.

Definition float : Type := spec_float.

Definition prec : Z := 53.
Definition emax : Z := 1024.

Definition add : float -> float -> float := SFadd prec emax.
Definition sub : float -> float -> float := SFsub prec emax.
Definition mul : float -> float -> float := SFmul prec emax.
Definition div : float -> float -> float := SFdiv prec emax.
Definition opp : float -> float := SFopp.
Definition abs : float -> float := SFabs.

(** [x < y] and [x > y]; both are false as soon as one side is NaN. *)
Definition lt (x y : float) : bool := SFltb x y.
Definition gt (x y : float) : bool := SFltb y x.

(** [float(z)] for an [int]: the nearest double.  The conversion is exact
    for every integer that is itself the value of a double. *)
Definition of_int (z : Z) : float := binary_normalize prec emax z 0 false.

(** The decimal literal [n/d], for [n] and [d] below 2^53: the double
    nearest to the quotient, which is what the correctly rounded division
    of the two exact integers gives. *)
Definition dec (n : Z) (d : positive) : float :=
  div (of_int n) (of_int (Zpos d)).

(** The exact value of a finite double. *)
Definition to_Q (x : float) : Q :=
  match x with
  | S754_finite s m e =>
      (if s then - inject_Z (Zpos m) else inject_Z (Zpos m)) * Qpower 2 e
  | _ => 0
  end.

(** [round(x)]: the nearest [int], halves to the even neighbour;
    [OverflowError] on an infinity, [ValueError] on NaN. *)
Definition round (x : float) : result Z :=
  match x with
  | S754_nan => Raise ValueError
  | S754_infinity _ => Raise OverflowError
  | S754_zero _ => Ok 0%Z
  | S754_finite _ _ _ => Ok (Py.round (to_Q x))
  end.

Definition is_zero (x : float) : bool :=
  match x with S754_zero _ => true | _ => false end.

Definition sign (x : float) : bool :=
  match x with
  | S754_zero s | S754_infinity s | S754_finite s _ _ => s
  | S754_nan => false
  end.

(** C's [fmod]: the remainder of the truncated division, exact, with the
    sign of [x]. *)
Definition c_fmod (x y : float) : float :=
  match x, y with
  | S754_nan, _ | _, S754_nan => S754_nan
  | S754_infinity _, _ => S754_nan
  | _, S754_zero _ => S754_nan
  | S754_zero _, _ => x
  | S754_finite _ _ _, S754_infinity _ => x
  | S754_finite sx mx ex, S754_finite _ my ey =>
      let e := Z.min ex ey in
      let a := Z.shiftl (Zpos mx) (ex - e) in
      let b := Z.shiftl (Zpos my) (ey - e) in
      binary_normalize prec emax (cond_Zopp sx (Z.rem a b)) e sx
  end.

(** [x % y] on floats ([float_rem] of CPython): [fmod], moved by [y] when
    its sign differs from that of [y]; a zero remainder takes the sign of
    [y].  The divisor is the literal 360.0 at each use in the solver, so
    the [ZeroDivisionError] of a zero divisor cannot arise. *)
Definition float_mod (x y : float) : float :=
  let m := c_fmod x y in
  if is_zero m then S754_zero (sign y)
  else if xorb (lt y (S754_zero false)) (lt m (S754_zero false))
  then add m y
  else m.

(** [max(a, b)] and [min(a, b)]. *)
Definition max2 (a b : float) : float := if gt b a then b else a.
Definition min2 (a b : float) : float := if lt b a then b else a.

Fixpoint max_loop {A} (key : A -> result float) (best : A) (bestv : float)
    (l : list A) : result A :=
  match l with
  | [] => Ok best
  | x :: l' =>
      let* v := key x in
      if gt v bestv then max_loop key x v l'
      else max_loop key best bestv l'
  end.

Definition max_key {A} (key : A -> result float) (l : list A) : result A :=
  match l with
  | [] => Raise ValueError
  | x :: l' => let* v := key x in max_loop key x v l'
  end.

Fixpoint min_loop {A} (key : A -> result float) (best : A) (bestv : float)
    (l : list A) : result A :=
  match l with
  | [] => Ok best
  | x :: l' =>
      let* v := key x in
      if lt v bestv then min_loop key x v l'
      else min_loop key best bestv l'
  end.

Definition min_key {A} (key : A -> result float) (l : list A) : result A :=
  match l with
  | [] => Raise ValueError
  | x :: l' => let* v := key x in min_loop key x v l'
  end.

(** [sum(gen)]: starts from the [int] 0 and adds the items left to right.
    (With at most two items, the compensated summation of CPython 3.12
    returns the same double.) *)
Fixpoint sum_from (acc : float) (l : list (result float)) : result float :=
  match l with
  | [] => Ok acc
  | c :: l' => let* v := c in sum_from (add acc v) l'
  end.

Definition sum (l : list (result float)) : result float :=
  sum_from (of_int 0) l.

(** Modelled from the spec: the [balance] field of a [Measurement], with
    its two readings as doubles. *)
Record BalanceReading : Type := {
  amp_ips : float;
  phase_deg : float
}.

(** Modelled from the spec: the [Measurement] record of [vxp/types.py],
    with doubles. *)
Record Measurement : Type := {
  track_mm : gmap string float;
  balance : BalanceReading
}.

Definition BLADE_CLOCK_DEG : gmap string float :=
  <["GRN" := of_int 270]>
    (<["BLU" := of_int 180]>
      (<["RED" := of_int 90]> (<["YEL" := of_int 0]> ∅))).

Definition PITCHLINK_MM_PER_TURN : float := of_int 10.
Definition BOLT_IPS_PER_GRAM : float := dec 20 10000.

Definition _round_quarter (x : float) : result float :=
  let* k := round (mul x (of_int 4)) in
  Ok (div (of_int k) (of_int 4)).

(** [{b: 0.0 for b in BLADES}] *)
Definition zero_per_blade : gmap string float :=
  foldl (fun out b => <[b := of_int 0]> out) ∅ BLADES.

Definition suggest_pitchlink (meas : dict Measurement)
    : result (gmap string float) :=
  let used := filter (fun r => contains meas r = true)
                     ["GROUND"; "HOVER"] in
  match used with
  | [] => Ok zero_per_blade
  | _ =>
      for_each (fun out b =>
          let* s := sum (map (fun r => let* m := getitem meas r in
                                       subscript (track_mm m) b) used) in
          let avg := div s (of_int (Z.of_nat (length used))) in
          let* v := _round_quarter (div (opp avg) PITCHLINK_MM_PER_TURN) in
          Ok (<[b := v]> out))
        BLADES ∅
  end.

(** The local function [dist] of [suggest_weight]. *)
Definition dist (a b : float) : float :=
  let d := float_mod (abs (sub a b)) (of_int 360) in
  min2 d (sub (of_int 360) d).

Definition suggest_weight (meas : dict Measurement)
    : result (string * float) :=
  match meas with
  | [] => Ok ("YEL", of_int 0)
  | _ =>
      let* worst_r := max_key (fun r => let* m := getitem meas r in
                                        Ok (amp_ips (balance m)))
                              (keys meas) in
      let* m := getitem meas worst_r in
      let amp := amp_ips (balance m) in
      let phase := phase_deg (balance m) in
      let target := float_mod (add phase (of_int 180)) (of_int 360) in
      let* blade := min_key (fun bb => let* c := subscript BLADE_CLOCK_DEG bb in
                                       Ok (dist target c))
                            BLADES in
      let* k := round (div (div amp BOLT_IPS_PER_GRAM) (of_int 5)) in
      let grams :=
        max2 (of_int 5) (min2 (of_int 120) (mul (of_int k) (of_int 5))) in
      Ok (blade, grams)
  end.

(** The regime [suggest_weight] binds to [worst_r]. *)
Definition worst_regime (meas : dict Measurement) : result string :=
  max_key (fun r => let* m := getitem meas r in Ok (amp_ips (balance m)))
          (keys meas).

(** The target phase [suggest_weight] computes from the measurement it
    selected. *)
Definition target_phase (m : Measurement) : float :=
  float_mod (add (phase_deg (balance m)) (of_int 180)) (of_int 360).

(** The clock azimuth of a blade, read off [BLADE_CLOCK_DEG]. *)
Definition blade_clock (b : string) : float :=
  default S754_nan (BLADE_CLOCK_DEG !! b).

(** A measurement is well formed when [track_mm] has all four blade
    keys. *)
Definition well_formed (m : Measurement) : Prop :=
  Forall (fun b => is_Some (track_mm m !! b)) BLADES.

#[global] Instance well_formed_dec m : Decision (well_formed m).
Proof. unfold well_formed. apply _. Defined.

(** A measurement with the given four deviations and balance reading. *)
Definition measurement (blu grn yel red amp phase : float) : Measurement :=
  {| track_mm :=
       <["RED" := red]>
         (<["YEL" := yel]>
           (<["GRN" := grn]> (<["BLU" := blu]> ∅)));
     balance := {| amp_ips := amp; phase_deg := phase |} |}.

(** The place of a non-NaN double in the order of the doubles, as a
    triple compared lexicographically; the two zeros share a place. *)
Definition place (x : float) : option (Z * Z * Z) :=
  match x with
  | S754_nan => None
  | S754_infinity true => Some ((-2)%Z, 0%Z, 0%Z)
  | S754_finite true m e => Some ((-1)%Z, (- e)%Z, Zneg m)
  | S754_zero _ => Some (0%Z, 0%Z, 0%Z)
  | S754_finite false m e => Some (1%Z, e, Zpos m)
  | S754_infinity false => Some (2%Z, 0%Z, 0%Z)
  end.

Definition before (p q : Z * Z * Z) : Prop :=
  let '(p1, p2, p3) := p in
  let '(q1, q2, q3) := q in
  (p1 < q1 \/ (p1 = q1 /\ (p2 < q2 \/ (p2 = q2 /\ p3 < q3))))%Z.

End F64.

(** * Properties *)

(** Closed decidable facts (membership in a literal list, well-formedness
    of a literal measurement) are settled by evaluation. *)
Ltac by_compute := apply (bool_decide_unpack _); vm_compute; exact I.

(** ** Comparisons, [max], [min] *)

Lemma gt_true x y : gt x y = true <-> y < x.
Proof.
  unfold gt. rewrite Qgt_alt. destruct (Qcompare x y); split; congruence.
Qed.

Lemma gt_false x y : gt x y = false <-> x <= y.
Proof.
  unfold gt. rewrite Qle_alt. destruct (Qcompare x y); split; congruence.
Qed.

Lemma lt_true x y : lt x y = true <-> x < y.
Proof.
  unfold lt. rewrite Qlt_alt. destruct (Qcompare x y); split; congruence.
Qed.

Lemma lt_false x y : lt x y = false <-> y <= x.
Proof.
  unfold lt. rewrite Qge_alt. destruct (Qcompare x y); split; congruence.
Qed.

Lemma max2_cases a b : (a < b /\ max2 a b = b) \/ (b <= a /\ max2 a b = a).
Proof.
  unfold max2. destruct (gt b a) eqn:E.
  - left. by apply gt_true in E.
  - right. by apply gt_false in E.
Qed.

Lemma min2_cases a b : (b < a /\ min2 a b = b) \/ (a <= b /\ min2 a b = a).
Proof.
  unfold min2. destruct (lt b a) eqn:E.
  - left. by apply lt_true in E.
  - right. by apply lt_false in E.
Qed.

Lemma max2_Qmax a b : max2 a b == Qmax a b.
Proof.
  destruct (max2_cases a b) as [[H ->]|[H ->]].
  - symmetry. apply Q.max_r. lra.
  - symmetry. by apply Q.max_l.
Qed.

Lemma min2_Qmin a b : min2 a b == Qmin a b.
Proof.
  destruct (min2_cases a b) as [[H ->]|[H ->]].
  - symmetry. apply Q.min_r. lra.
  - symmetry. by apply Q.min_l.
Qed.

(** ** The loops of [max] and [min] with a key *)

Section KeyLoops.
Context {A : Type} (key : A -> result Q) (f : A -> Q).

Lemma max_loop_spec (l : list A) (best : A) :
  (forall x, x ∈ l -> key x = Ok (f x)) ->
  exists r, max_loop key best (f best) l = Ok r
    /\ (r = best \/ r ∈ l)
    /\ f best <= f r
    /\ (forall x, x ∈ l -> f x <= f r).
Proof.
  revert best. induction l as [|x l IH]; intros best Hk; simpl.
  - exists best. split_and!; [done|by left|lra|]. intros x Hx. inversion Hx.
  - rewrite (Hk x) by constructor. simpl.
    assert (Hl : forall y, y ∈ l -> key y = Ok (f y)).
    { intros y Hy. apply Hk. by constructor. }
    destruct (gt (f x) (f best)) eqn:E.
    + apply gt_true in E.
      destruct (IH x Hl) as (r & -> & Hr & Hb & Hall). exists r.
      split_and!; [done| |lra|].
      * right. destruct Hr as [->|Hr]; [constructor|by constructor].
      * intros y Hy. apply elem_of_cons in Hy as [->|Hy]; [done|by apply Hall].
    + apply gt_false in E.
      destruct (IH best Hl) as (r & -> & Hr & Hb & Hall). exists r.
      split_and!; [done| |done|].
      * destruct Hr as [->|Hr]; [by left|right; by constructor].
      * intros y Hy. apply elem_of_cons in Hy as [->|Hy]; [lra|by apply Hall].
Qed.

Lemma max_key_spec (l : list A) :
  l <> [] ->
  (forall x, x ∈ l -> key x = Ok (f x)) ->
  exists r, max_key key l = Ok r /\ r ∈ l /\ (forall x, x ∈ l -> f x <= f r).
Proof.
  destruct l as [|x l]; [done|]. intros _ Hk. simpl.
  rewrite (Hk x) by constructor. simpl.
  destruct (max_loop_spec l x) as (r & -> & Hr & Hb & Hall).
  { intros y Hy. apply Hk. by constructor. }
  exists r. split_and!; [done| |].
  - destruct Hr as [->|Hr]; [constructor|by constructor].
  - intros y Hy. apply elem_of_cons in Hy as [->|Hy]; [done|by apply Hall].
Qed.

(** [min] keeps the first of the items with the least key: every item
    before the one returned has a strictly greater key. *)
Lemma min_loop_spec (l : list A) (best : A) :
  (forall x, x ∈ l -> key x = Ok (f x)) ->
  exists r, min_loop key best (f best) l = Ok r
    /\ f r <= f best
    /\ (forall x, x ∈ l -> f r <= f x)
    /\ (r = best
        \/ exists i, l !! i = Some r /\ f r < f best
             /\ forall j y, (j < i)%nat -> l !! j = Some y -> f r < f y).
Proof.
  revert best. induction l as [|x l IH]; intros best Hk; simpl.
  - exists best. split_and!; [done|lra| |by left]. intros x Hx. inversion Hx.
  - rewrite (Hk x) by constructor. simpl.
    assert (Hl : forall y, y ∈ l -> key y = Ok (f y)).
    { intros y Hy. apply Hk. by constructor. }
    destruct (lt (f x) (f best)) eqn:E.
    + apply lt_true in E.
      destruct (IH x Hl) as (r & -> & Hb & Hall & Hfirst). exists r.
      split_and!; [done|lra| |].
      * intros y Hy. apply elem_of_cons in Hy as [->|Hy]; [done|by apply Hall].
      * right. destruct Hfirst as [->|(i & Hi & Hlt & Hbefore)].
        -- exists 0%nat. split_and!; [done|done|]. intros j y Hj. lia.
        -- exists (S i). split_and!; [done|lra|].
           intros [|j] y Hj Hy; simpl in Hy.
           ++ by inversion Hy; subst.
           ++ apply (Hbefore j); [lia|done].
    + apply lt_false in E.
      destruct (IH best Hl) as (r & -> & Hb & Hall & Hfirst). exists r.
      split_and!; [done|done| |].
      * intros y Hy. apply elem_of_cons in Hy as [->|Hy]; [lra|by apply Hall].
      * destruct Hfirst as [->|(i & Hi & Hlt & Hbefore)]; [by left|right].
        exists (S i). split_and!; [done|done|].
        intros [|j] y Hj Hy; simpl in Hy.
        -- inversion Hy; subst. lra.
        -- apply (Hbefore j); [lia|done].
Qed.

Lemma min_key_spec (l : list A) :
  l <> [] ->
  (forall x, x ∈ l -> key x = Ok (f x)) ->
  exists r i, min_key key l = Ok r
    /\ l !! i = Some r
    /\ (forall x, x ∈ l -> f r <= f x)
    /\ (forall j y, (j < i)%nat -> l !! j = Some y -> f r < f y).
Proof.
  destruct l as [|x l]; [done|]. intros _ Hk. simpl.
  rewrite (Hk x) by constructor. simpl.
  destruct (min_loop_spec l x) as (r & -> & Hb & Hall & Hfirst).
  { intros y Hy. apply Hk. by constructor. }
  exists r.
  destruct Hfirst as [->|(i & Hi & Hlt & Hbefore)].
  - exists 0%nat. split_and!; [done|done| |intros j y Hj; lia].
    intros y Hy. apply elem_of_cons in Hy as [->|Hy]; [lra|by apply Hall].
  - exists (S i). split_and!; [done|done| |].
    + intros y Hy. apply elem_of_cons in Hy as [->|Hy]; [done|by apply Hall].
    + intros [|j] y Hj Hy; simpl in Hy.
      * by inversion Hy; subst.
      * apply (Hbefore j); [lia|done].
Qed.
End KeyLoops.

(** ** [track_spread] *)

Lemma max_seq_total (l : list Q) : l <> [] -> exists hi, max_seq l = Ok hi.
Proof.
  intros Hl. destruct (max_key_spec Ok id l Hl) as (r & Hr & _); [done|].
  by exists r.
Qed.

Lemma min_seq_total (l : list Q) : l <> [] -> exists lo, min_seq l = Ok lo.
Proof.
  intros Hl. destruct (min_key_spec Ok id l Hl) as (r & i & Hr & _); [done|].
  by exists r.
Qed.

Lemma well_formed_lookup m b :
  well_formed m -> b ∈ BLADES -> exists v, track_mm m !! b = Some v.
Proof.
  intros Hwf Hb. unfold well_formed in Hwf. rewrite Forall_forall in Hwf.
  destruct (Hwf b Hb) as [v Hv]. by exists v.
Qed.

Lemma blade_values m :
  well_formed m ->
  exists vals, list_comp (fun b => subscript (track_mm m) b) BLADES = Ok vals
    /\ vals <> [].
Proof.
  intros Hwf.
  destruct (well_formed_lookup m "BLU" Hwf) as [v1 H1]; [by_compute|].
  destruct (well_formed_lookup m "GRN" Hwf) as [v2 H2]; [by_compute|].
  destruct (well_formed_lookup m "YEL" Hwf) as [v3 H3]; [by_compute|].
  destruct (well_formed_lookup m "RED" Hwf) as [v4 H4]; [by_compute|].
  exists [v1; v2; v3; v4]. split; [|done].
  unfold BLADES, subscript. simpl. by rewrite H1, H2, H3, H4.
Qed.

(** The spread of a well-formed measurement is defined. *)
Lemma track_spread_total m :
  well_formed m -> exists ts, track_spread m = Ok ts.
Proof.
  intros Hwf. destruct (blade_values m Hwf) as (vals & Hvals & Hne).
  destruct (max_seq_total vals Hne) as [hi Hhi].
  destruct (min_seq_total vals Hne) as [lo Hlo].
  exists (hi - lo). unfold track_spread.
  rewrite Hvals. simpl. rewrite Hhi. simpl. by rewrite Hlo.
Qed.

(** A missing blade key makes the subscript in the comprehension raise:
    the spread is a [KeyError] naming a blade that is not there. *)
Lemma track_spread_missing m :
  (exists b, b ∈ BLADES /\ track_mm m !! b = None) ->
  exists k, track_spread m = Raise (KeyError k)
    /\ k ∈ BLADES /\ track_mm m !! k = None.
Proof.
  intros (b & Hb & Hnone). unfold track_spread, BLADES, subscript. simpl.
  destruct (track_mm m !! "BLU") eqn:H1; simpl;
    [|exists "BLU"; split_and!; [done|by_compute|done]].
  destruct (track_mm m !! "GRN") eqn:H2; simpl;
    [|exists "GRN"; split_and!; [done|by_compute|done]].
  destruct (track_mm m !! "YEL") eqn:H3; simpl;
    [|exists "YEL"; split_and!; [done|by_compute|done]].
  destruct (track_mm m !! "RED") eqn:H4; simpl;
    [|exists "RED"; split_and!; [done|by_compute|done]].
  exfalso. unfold BLADES in Hb.
  repeat (apply elem_of_cons in Hb as [->|Hb]; [congruence|]).
  inversion Hb.
Qed.

(** ** [regime_status] *)

Lemma regime_status_unfold regime m ts :
  regime ∈ REGIMES ->
  track_spread m = Ok ts ->
  regime_status regime (Some m) =
    if gt ts (procedural_track_limit regime)
       || gt (amp_ips (balance m)) (procedural_balance_limit regime)
    then Some STOP
    else if gt ts (acceptance_track_limit regime)
            || gt (amp_ips (balance m)) (acceptance_balance_limit regime)
    then Some WARN
    else Some OK.
Proof.
  intros Hr Hts. unfold regime_status. rewrite Hts. simpl.
  by rewrite (bool_decide_eq_true_2 _ Hr).
Qed.

Lemma gt_or_true a b c d : gt a b || gt c d = true <-> b < a \/ d < c.
Proof. rewrite orb_true_iff, !gt_true. tauto. Qed.

Lemma gt_or_false a b c d : gt a b || gt c d = false <-> ~ (b < a \/ d < c).
Proof.
  rewrite <- gt_or_true. destruct (gt a b || gt c d); split; try done.
Qed.

(** C1.  For a recognised regime and a well-formed measurement the spread
    [ts] is defined and the status is [STOP] when the spread is strictly
    above the procedural track limit or the amplitude strictly above the
    procedural balance limit; otherwise [WARN] when the spread is strictly
    above the acceptance track limit or the amplitude strictly above the
    acceptance balance limit; otherwise [OK].  The [STOP] test comes
    first: it decides alone, whatever the acceptance test says. *)
Theorem regime_status_bands regime m :
  regime ∈ REGIMES ->
  well_formed m ->
  exists ts, track_spread m = Ok ts /\
    let amp := amp_ips (balance m) in
    let stop := procedural_track_limit regime < ts
                \/ procedural_balance_limit regime < amp in
    let warn := acceptance_track_limit regime < ts
                \/ acceptance_balance_limit regime < amp in
    (stop -> regime_status regime (Some m) = Some STOP)
    /\ (~ stop -> warn -> regime_status regime (Some m) = Some WARN)
    /\ (~ stop -> ~ warn -> regime_status regime (Some m) = Some OK).
Proof.
  intros Hr Hwf. destruct (track_spread_total m Hwf) as [ts Hts].
  exists ts. split; [done|]. cbv zeta.
  rewrite (regime_status_unfold regime m ts Hr Hts).
  split_and!.
  - intros Hstop. apply gt_or_true in Hstop. by rewrite Hstop.
  - intros Hstop Hwarn. apply gt_or_false in Hstop. apply gt_or_true in Hwarn.
    by rewrite Hstop, Hwarn.
  - intros Hstop Hwarn. apply gt_or_false in Hstop. apply gt_or_false in Hwarn.
    by rewrite Hstop, Hwarn.
Qed.

Lemma regime_status_bands_witness :
  "HOVER" ∈ REGIMES
  /\ well_formed (measurement 0.0 12.0 25.0 3.0 0.10 45.0)
  /\ exists ts,
       track_spread (measurement 0.0 12.0 25.0 3.0 0.10 45.0) = Ok ts /\
       let m := measurement 0.0 12.0 25.0 3.0 0.10 45.0 in
       let amp := amp_ips (balance m) in
       let stop := procedural_track_limit "HOVER" < ts
                   \/ procedural_balance_limit "HOVER" < amp in
       let warn := acceptance_track_limit "HOVER" < ts
                   \/ acceptance_balance_limit "HOVER" < amp in
       (stop -> regime_status "HOVER" (Some m) = Some STOP)
       /\ (~ stop -> warn -> regime_status "HOVER" (Some m) = Some WARN)
       /\ (~ stop -> ~ warn -> regime_status "HOVER" (Some m) = Some OK).
Proof.
  split; [by_compute|]. split; [by_compute|].
  apply (regime_status_bands "HOVER" (measurement 0.0 12.0 25.0 3.0 0.10 45.0));
    by_compute.
Defined.

(** C7.  For a recognised regime and two well-formed measurements, if the
    second has a spread at least the first's and an amplitude at least the
    first's, both get a verdict among OK, WARN, STOP and the verdict of
    the second is at least as severe as that of the first. *)
Theorem regime_status_monotone regime m1 m2 ts1 ts2 :
  regime ∈ REGIMES ->
  well_formed m1 ->
  well_formed m2 ->
  track_spread m1 = Ok ts1 ->
  track_spread m2 = Ok ts2 ->
  ts1 <= ts2 ->
  amp_ips (balance m1) <= amp_ips (balance m2) ->
  exists s1 s2,
    regime_status regime (Some m1) = Some s1
    /\ regime_status regime (Some m2) = Some s2
    /\ s1 <> DONE /\ s2 <> DONE
    /\ (severity s1 <= severity s2)%nat.
Proof.
  intros Hr _ _ H1 H2 Hts Hamp.
  rewrite (regime_status_unfold regime m1 ts1 Hr H1).
  rewrite (regime_status_unfold regime m2 ts2 Hr H2).
  set (amp1 := amp_ips (balance m1)) in *.
  set (amp2 := amp_ips (balance m2)) in *.
  destruct (gt ts1 (procedural_track_limit regime)
            || gt amp1 (procedural_balance_limit regime)) eqn:S1.
  { apply gt_or_true in S1.
    assert (S2 : procedural_track_limit regime < ts2
                 \/ procedural_balance_limit regime < amp2)
      by (destruct S1; [left|right]; lra).
    apply gt_or_true in S2. rewrite S2.
    exists STOP, STOP. by split_and!. }
  destruct (gt ts1 (acceptance_track_limit regime)
            || gt amp1 (acceptance_balance_limit regime)) eqn:W1.
  { apply gt_or_true in W1.
    assert (W2 : acceptance_track_limit regime < ts2
                 \/ acceptance_balance_limit regime < amp2)
      by (destruct W1; [left|right]; lra).
    apply gt_or_true in W2. rewrite W2. clear W2.
    destruct (gt ts2 (procedural_track_limit regime)
              || gt amp2 (procedural_balance_limit regime)).
    - exists WARN, STOP. split_and!; try done. simpl. lia.
    - exists WARN, WARN. by split_and!. }
  destruct (gt ts2 (procedural_track_limit regime)
            || gt amp2 (procedural_balance_limit regime));
    [|destruct (gt ts2 (acceptance_track_limit regime)
                || gt amp2 (acceptance_balance_limit regime))].
  - exists OK, STOP. split_and!; try done. simpl. lia.
  - exists OK, WARN. split_and!; try done. simpl. lia.
  - exists OK, OK. by split_and!.
Qed.

Lemma regime_status_monotone_witness :
  exists s1 s2,
    regime_status "GROUND" (Some (measurement 0.0 5.0 10.0 2.0 0.10 0.0))
      = Some s1
    /\ regime_status "GROUND" (Some (measurement 0.0 5.0 22.0 2.0 0.35 0.0))
      = Some s2
    /\ s1 <> DONE /\ s2 <> DONE
    /\ (severity s1 <= severity s2)%nat.
Proof.
  eapply (regime_status_monotone "GROUND"
            (measurement 0.0 5.0 10.0 2.0 0.10 0.0)
            (measurement 0.0 5.0 22.0 2.0 0.35 0.0));
    [by_compute | by_compute | by_compute
    | vm_compute; reflexivity | vm_compute; reflexivity
    | by vm_compute | by vm_compute].
Defined.

(** C8.  The status is [None] exactly when no measurement is given, and a
    well-formed measurement under a regime name outside GROUND, HOVER,
    HORIZ gets [DONE]. *)
Theorem regime_status_absent_done :
  (forall regime m, regime_status regime m = None <-> m = None)
  /\ (forall regime m,
        regime ∉ REGIMES -> well_formed m ->
        regime_status regime (Some m) = Some DONE).
Proof.
  split.
  - intros regime [m|]; [|done]. split; [|done]. unfold regime_status.
    destruct (track_spread m) as [ts|e]; simpl; [|done].
    destruct (negb _); [done|]. destruct (_ || _); [done|].
    by destruct (_ || _).
  - intros regime m Hr Hwf. destruct (track_spread_total m Hwf) as [ts Hts].
    unfold regime_status. rewrite Hts. simpl.
    by rewrite (bool_decide_eq_false_2 _ Hr).
Qed.

Lemma regime_status_absent_done_witness :
  ("CRUISE" ∉ REGIMES)
  /\ well_formed (measurement 0.0 5.0 10.0 2.0 0.10 0.0)
  /\ regime_status "CRUISE" (Some (measurement 0.0 5.0 10.0 2.0 0.10 0.0))
     = Some DONE.
Proof.
  split; [by_compute|]. split; [by_compute|].
  apply (proj2 regime_status_absent_done); by_compute.
Defined.

(** C9.  When one of the four blade keys is missing, [track_spread] raises
    a [KeyError] for a missing blade, it does not return a number, while
    [regime_status] on the same measurement swallows the error and answers
    [DONE], whatever the regime. *)
Theorem missing_blade_key m :
  (exists b, b ∈ BLADES /\ track_mm m !! b = None) ->
  (exists k, track_spread m = Raise (KeyError k)
     /\ k ∈ BLADES /\ track_mm m !! k = None)
  /\ (forall regime, regime_status regime (Some m) = Some DONE).
Proof.
  intros Hmiss. destruct (track_spread_missing m Hmiss) as (k & Hk & Hin & Hno).
  split; [by exists k|]. intros regime. unfold regime_status. by rewrite Hk.
Qed.

Lemma missing_blade_key_witness :
  (exists b, b ∈ BLADES /\ track_mm measurement_no_yel !! b = None)
  /\ (exists k, track_spread measurement_no_yel = Raise (KeyError k)
        /\ k ∈ BLADES /\ track_mm measurement_no_yel !! k = None)
  /\ (forall regime,
        regime_status regime (Some measurement_no_yel) = Some DONE).
Proof.
  assert (H : exists b, b ∈ BLADES /\ track_mm measurement_no_yel !! b = None).
  { exists "YEL". split; [by_compute|vm_compute; reflexivity]. }
  split; [exact H|]. exact (missing_blade_key measurement_no_yel H).
Defined.

(** ** Subscripting the regime mapping *)

Lemma contains_getitem {V} (d : dict V) k :
  contains d k = true -> exists v, getitem d k = Ok v.
Proof.
  unfold contains, keys. intros H. apply bool_decide_eq_true_1 in H.
  induction d as [|[k' v] d IH]; simpl in *; [inversion H|].
  destruct (decide (k = k')) as [->|Hne]; [by exists v|].
  apply IH. apply elem_of_cons in H as [H|H]; [done|exact H].
Qed.

Lemma not_contains_getitem {V} (d : dict V) k :
  contains d k = false -> getitem d k = Raise (KeyError k).
Proof.
  unfold contains, keys. intros H. apply bool_decide_eq_false_1 in H.
  induction d as [|[k' v] d IH]; simpl in *; [done|].
  destruct (decide (k = k')) as [->|Hne].
  - exfalso. apply H. constructor.
  - apply IH. intros Hin. apply H. by constructor.
Qed.

Lemma getitem_contains {V} (d : dict V) k v :
  getitem d k = Ok v -> contains d k = true.
Proof.
  intros H. destruct (contains d k) eqn:E; [done|].
  apply not_contains_getitem in E. congruence.
Qed.



(** ** [all_ok] *)

(** What the specification asks of one regime: a measurement is there, its
    spread is at most the legacy track limit and its amplitude at most the
    legacy balance limit. *)
Lemma all_ok_loop_true meas rs :
  all_ok_loop meas rs = Ok true <->
  forall r, r ∈ rs ->
    exists m ts, getitem meas r = Ok m
      /\ track_spread m = Ok ts
      /\ ts <= track_limit r
      /\ amp_ips (balance m) <= balance_limit r.
Proof.
  induction rs as [|r rs IH]; simpl.
  - split; [|done]. intros _ r Hr. inversion Hr.
  - destruct (contains meas r) eqn:Hc; simpl.
    2:{ split; [done|]. intros H.
        destruct (H r) as (m & ts & Hget & _); [constructor|].
        apply not_contains_getitem in Hc. congruence. }
    destruct (contains_getitem meas r Hc) as [m Hm]. rewrite Hm. simpl.
    destruct (track_spread m) as [ts|e] eqn:Hts; simpl.
    2:{ split; [done|]. intros H.
        destruct (H r) as (m' & ts & Hget & Hts' & _); [constructor|].
        congruence. }
    destruct (gt ts (track_limit r)) eqn:Ht.
    { split; [done|]. intros H.
      destruct (H r) as (m' & ts' & Hget & Hts' & Hle & _); [constructor|].
      apply gt_true in Ht. assert (m' = m) as -> by congruence.
      assert (ts' = ts) as -> by congruence. lra. }
    destruct (gt (amp_ips (balance m)) (balance_limit r)) eqn:Ha.
    { split; [done|]. intros H.
      destruct (H r) as (m' & ts' & Hget & _ & _ & Hle); [constructor|].
      apply gt_true in Ha. assert (m' = m) as -> by congruence. lra. }
    apply gt_false in Ht, Ha. rewrite IH. split.
    + intros H r' Hr'. apply elem_of_cons in Hr' as [->|Hr'].
      * by exists m, ts.
      * by apply H.
    + intros H r' Hr'. apply H. by constructor.
Qed.




(** ** Rounding and remainders *)

Lemma round_bounds x :
  inject_Z (round x) - x <= 1 # 2 /\ x - inject_Z (round x) <= 1 # 2.
Proof.
  unfold round. pose proof (Qfloor_le x) as Hlo.
  pose proof (Qlt_floor x) as Hhi. rewrite inject_Z_plus in Hhi.
  change (inject_Z 1) with 1 in Hhi.
  destruct (Qcompare_spec (x - inject_Z (Qfloor x)) (1 # 2)) as [E|E|E].
  - destruct (Z.even (Qfloor x)).
    + split; lra.
    + rewrite inject_Z_plus. change (inject_Z 1) with 1. split; lra.
  - split; lra.
  - rewrite inject_Z_plus. change (inject_Z 1) with 1. split; lra.
Qed.

Lemma round_nearest x : Qabs (inject_Z (round x) - x) <= 1 # 2.
Proof.
  destruct (round_bounds x). apply Qabs_case; intros; lra.
Qed.

(** [_round_quarter] gives a multiple of a quarter nearest to its
    argument. *)
Lemma _round_quarter_nearest x : nearest_multiple (1 # 4) x (_round_quarter x).
Proof.
  unfold nearest_multiple, _round_quarter.
  set (r := inject_Z (round (x * 4.0))).
  assert (E : r / 4.0 == r * (1 # 4)) by field.
  assert (E2 : (1 # 4) / 2 == 1 # 8) by reflexivity.
  split.
  - by exists (round (x * 4.0)).
  - destruct (round_bounds (x * 4.0)) as [H1 H2]. fold r in H1, H2.
    clearbody r. apply Qabs_case; intros; lra.
Qed.



Lemma clamp_bounds lo hi x : lo <= hi -> lo <= clamp lo hi x /\ clamp lo hi x <= hi.
Proof.
  intros H. unfold clamp. split.
  - apply Q.le_max_l.
  - apply Q.max_lub; [done|apply Q.le_min_l].
Qed.

(** The nested [max(lo, min(hi, x))] of the source is the clamp. *)
Lemma max2_min2_clamp lo hi x : max2 lo (min2 hi x) == clamp lo hi x.
Proof.
  unfold clamp. rewrite max2_Qmax.
  apply Q.max_compat; [reflexivity|apply min2_Qmin].
Qed.

(** The local [dist] is the circular distance of the specification. *)
Lemma dist_circular_distance a b : dist a b == circular_distance a b.
Proof.
  unfold dist, circular_distance. cbv zeta. rewrite min2_Qmin.
  assert (E : float_mod (Qabs (a - b)) 360.0 == float_mod (Qabs (a - b)) 360).
  { unfold float_mod.
    assert (Ediv : Qabs (a - b) / 360.0 == Qabs (a - b) / 360) by field.
    rewrite (Qfloor_comp _ _ Ediv). lra. }
  apply Q.min_compat; lra.
Qed.

#[global] Instance round_proper : Proper (Qeq ==> eq) round.
Proof.
  intros x y E. unfold round. rewrite (Qfloor_comp x y E).
  assert (E' : x - inject_Z (Qfloor y) == y - inject_Z (Qfloor y)) by lra.
  by rewrite (Qcompare_comp _ _ E' (1 # 2) (1 # 2) (reflexivity _)).
Qed.

#[global] Instance _round_quarter_proper : Proper (Qeq ==> Qeq) _round_quarter.
Proof.
  intros x y E. unfold _round_quarter.
  assert (E' : x * 4.0 == y * 4.0) by lra. by rewrite (round_proper _ _ E').
Qed.


Lemma zero_per_blade_lookup b : b ∈ BLADES -> zero_per_blade !! b = Some 0.0.
Proof.
  intros Hb. unfold BLADES in Hb.
  repeat (apply elem_of_cons in Hb as [->|Hb]; [by vm_compute|]).
  inversion Hb.
Qed.

(** ** [suggest_trimtabs] *)

(** C4.  Without a HORIZ measurement [suggest_trimtabs] returns 0.0 for
    each of the four blades.  With a well-formed HORIZ measurement,
    whatever its deviations, it returns for each blade the clamp to the
    range from -5.0 to 5.0 of [q], where [q] is the rounding to the nearest
    quarter of the negated deviation divided by 15.0: the clamp is applied
    to the rounded value, and the value returned lies between -5.0 and
    5.0. *)
Theorem suggest_trimtabs_spec meas :
  (contains meas "HORIZ" = false ->
     suggest_trimtabs meas = Ok zero_per_blade
     /\ forall b, b ∈ BLADES -> zero_per_blade !! b = Some 0.0)
  /\ (forall m,
        getitem meas "HORIZ" = Ok m -> well_formed m ->
        exists out, suggest_trimtabs meas = Ok out /\
          forall b, b ∈ BLADES ->
            exists dev q v,
              track_mm m !! b = Some dev
              /\ q = _round_quarter ((- dev) / 15.0)
              /\ nearest_multiple (1 # 4) ((- dev) / 15.0) q
              /\ out !! b = Some v
              /\ v == clamp (-5.0) 5.0 q
              /\ -5.0 <= v /\ v <= 5.0).
Proof.
  split.
  - intros Hc. unfold suggest_trimtabs. rewrite Hc. simpl.
    split; [done|apply zero_per_blade_lookup].
  - intros m Hm Hwf. unfold suggest_trimtabs.
    rewrite (getitem_contains meas "HORIZ" m Hm). simpl.
    destruct (well_formed_lookup m "BLU" Hwf) as [v1 H1]; [by_compute|].
    destruct (well_formed_lookup m "GRN" Hwf) as [v2 H2]; [by_compute|].
    destruct (well_formed_lookup m "YEL" Hwf) as [v3 H3]; [by_compute|].
    destruct (well_formed_lookup m "RED" Hwf) as [v4 H4]; [by_compute|].
    unfold subscript. rewrite Hm. simpl. rewrite H1, H2, H3, H4. simpl.
    eexists. split; [reflexivity|]. intros b Hb.
    assert (Hcl : forall dev,
      let v := max2 (-5.0)
                 (min2 5.0 (_round_quarter ((- dev) / TRIMTAB_MMTRACK_PER_MM)))
      in v == clamp (-5.0) 5.0 (_round_quarter ((- dev) / 15.0))
         /\ -5.0 <= v /\ v <= 5.0).
    { intros dev v. subst v.
      pose proof (max2_min2_clamp (-5.0) 5.0
                    (_round_quarter ((- dev) / TRIMTAB_MMTRACK_PER_MM))) as E.
      destruct (clamp_bounds (-5.0) 5.0
                  (_round_quarter ((- dev) / TRIMTAB_MMTRACK_PER_MM)))
        as [Hlo Hhi]; [by vm_compute|].
      split; [exact E|]. split; lra. }
    unfold BLADES in Hb.
    repeat (apply elem_of_cons in Hb as [->|Hb];
      [eexists _, _, _; split; [eassumption|];
       split; [reflexivity|]; split; [apply _round_quarter_nearest|];
       split; [by simplify_map_eq|]; apply Hcl|]).
    inversion Hb.
Qed.

Lemma suggest_trimtabs_spec_witness :
  getitem [("HORIZ", measurement 1000.0 (-1000.0) 3.0 40.0 0.01 0.0)] "HORIZ"
    = Ok (measurement 1000.0 (-1000.0) 3.0 40.0 0.01 0.0)
  /\ well_formed (measurement 1000.0 (-1000.0) 3.0 40.0 0.01 0.0)
  /\ exists out,
       suggest_trimtabs
         [("HORIZ", measurement 1000.0 (-1000.0) 3.0 40.0 0.01 0.0)] = Ok out
       /\ forall b, b ∈ BLADES ->
            exists dev q v,
              track_mm (measurement 1000.0 (-1000.0) 3.0 40.0 0.01 0.0) !! b
                = Some dev
              /\ q = _round_quarter ((- dev) / 15.0)
              /\ nearest_multiple (1 # 4) ((- dev) / 15.0) q
              /\ out !! b = Some v
              /\ v == clamp (-5.0) 5.0 q
              /\ -5.0 <= v /\ v <= 5.0.
Proof.
  split; [vm_compute; reflexivity|]. split; [by_compute|].
  apply (proj2 (suggest_trimtabs_spec
                  [("HORIZ", measurement 1000.0 (-1000.0) 3.0 40.0 0.01 0.0)]));
    [vm_compute; reflexivity|by_compute].
Defined.

(** ** [suggest_pitchlink] *)

Lemma subscript_Some {V} (m : gmap string V) k v :
  m !! k = Some v -> subscript m k = Ok v.
Proof. intros H. unfold subscript. by rewrite H. Qed.



Lemma used_regimes (meas : dict Measurement) :
  filter (fun r => contains meas r = true) ["GROUND"; "HOVER"]
  = ((if contains meas "GROUND" then ["GROUND"] else [])
       ++ (if contains meas "HOVER" then ["HOVER"] else []))%list.
Proof.
  rewrite !filter_cons, filter_nil.
  destruct (contains meas "GROUND"), (contains meas "HOVER");
    repeat case_decide; done.
Qed.



(** ** [suggest_weight] *)

Lemma blade_clock_lookup b :
  b ∈ BLADES -> BLADE_CLOCK_DEG !! b = Some (blade_clock b).
Proof.
  intros Hb. unfold BLADES in Hb.
  repeat (apply elem_of_cons in Hb as [->|Hb]; [by vm_compute|]).
  inversion Hb.
Qed.

Lemma worst_regime_spec meas :
  meas <> [] ->
  exists r w, worst_regime meas = Ok r
    /\ getitem meas r = Ok w
    /\ forall r' m', getitem meas r' = Ok m' ->
         amp_ips (balance m') <= amp_ips (balance w).
Proof.
  intros Hne.
  set (f := fun r => match getitem meas r with
                     | Ok m => amp_ips (balance m)
                     | Raise _ => 0
                     end).
  destruct (max_key_spec
              (fun r => let* m := getitem meas r in Ok (amp_ips (balance m)))
              f (keys meas)) as (r & Hr & Hin & Hmax).
  - destruct meas; [done|]. done.
  - intros r Hr. unfold f.
    destruct (contains_getitem meas r) as [m ->]; [|done].
    by apply bool_decide_eq_true_2.
  - destruct (contains_getitem meas r) as [w Hw];
      [by apply bool_decide_eq_true_2|].
    exists r, w. split_and!; [done|done|].
    intros r' m' Hm'. specialize (Hmax r'). unfold f in Hmax.
    rewrite Hm', Hw in Hmax. apply Hmax.
    apply getitem_contains in Hm'. by apply bool_decide_eq_true_1 in Hm'.
Qed.

(** One run of [suggest_weight] on a non-empty mapping: the measurement
    [w] selected, the blade returned with its position [i] in [BLADES],
    and the grams. *)
Lemma suggest_weight_run meas :
  meas <> [] ->
  exists r w blade i,
    worst_regime meas = Ok r
    /\ getitem meas r = Ok w
    /\ (forall r' m', getitem meas r' = Ok m' ->
          amp_ips (balance m') <= amp_ips (balance w))
    /\ suggest_weight meas =
         Ok (blade,
             max2 5.0
               (min2 120.0
                  (inject_Z (round (amp_ips (balance w)
                                    / BOLT_IPS_PER_GRAM / 5.0)) * 5.0)))
    /\ BLADES !! i = Some blade
    /\ (forall b', b' ∈ BLADES ->
          dist (target_phase w) (blade_clock blade)
          <= dist (target_phase w) (blade_clock b'))
    /\ (forall j b', (j < i)%nat -> BLADES !! j = Some b' ->
          dist (target_phase w) (blade_clock blade)
          < dist (target_phase w) (blade_clock b')).
Proof.
  intros Hne. destruct (worst_regime_spec meas Hne) as (r & w & Hr & Hw & Hmax).
  destruct (min_key_spec
              (fun bb => let* c := subscript BLADE_CLOCK_DEG bb in
                         Ok (dist (target_phase w) c))
              (fun bb => dist (target_phase w) (blade_clock bb))
              BLADES) as (blade & i & Hmin & Hi & Hle & Hfirst); [done| |].
  { intros b Hb. by rewrite (subscript_Some _ _ _ (blade_clock_lookup b Hb)). }
  exists r, w, blade, i. split_and!; try done.
  assert (Hbody : suggest_weight meas =
    let* worst_r := worst_regime meas in
    let* m := getitem meas worst_r in
    let* blade := min_key (fun bb => let* c := subscript BLADE_CLOCK_DEG bb in
                                     Ok (dist (target_phase m) c)) BLADES in
    Ok (blade,
        max2 5.0
          (min2 120.0
             (inject_Z (round (amp_ips (balance m)
                               / BOLT_IPS_PER_GRAM / 5.0)) * 5.0))))
    by (destruct meas; [done|reflexivity]).
  rewrite Hbody, Hr. cbn [bind]. rewrite Hw. cbn [bind]. by rewrite Hmin.
Qed.



#[global] Instance float_mod_proper : Proper (Qeq ==> Qeq ==> Qeq) float_mod.
Proof.
  intros x x' Ex y y' Ey. unfold float_mod.
  assert (E : x / y == x' / y') by (by rewrite Ex, Ey).
  rewrite (Qfloor_comp _ _ E). by rewrite Ex, Ey.
Qed.

#[global] Instance dist_proper : Proper (Qeq ==> Qeq ==> Qeq) dist.
Proof.
  intros a a' Ea b b' Eb. rewrite !dist_circular_distance.
  unfold circular_distance. cbv zeta.
  assert (E : Qabs (a - b) == Qabs (a' - b'))
    by (apply Qabs_wd; by rewrite Ea, Eb).
  assert (E' : float_mod (Qabs (a - b)) 360 == float_mod (Qabs (a' - b')) 360)
    by (by rewrite E).
  apply Q.min_compat; [done|by rewrite E'].
Qed.


Lemma worst_regime_nonempty meas r : worst_regime meas = Ok r -> meas <> [].
Proof. by destruct meas. Qed.



(** A tie: with phase 45 the target is 225, half way between BLU at 180
    and GRN at 270; BLU, declared first, is returned. *)
Example suggest_weight_tie_225 :
  suggest_weight [("GROUND", measurement 0.0 1.0 2.0 3.0 0.10 45.0)]
    = Ok ("BLU", 50.0)
  /\ circular_distance 225 (blade_clock "BLU") == 45
  /\ circular_distance 225 (blade_clock "GRN") == 45.
Proof. split_and!; by vm_compute. Qed.

(** A deviation of 1000 mm bends the tab to the lower end of the range. *)
Example suggest_trimtabs_1000 :
  exists out,
    suggest_trimtabs [("HORIZ", measurement 1000.0 0.0 0.0 0.0 0.0 0.0)]
      = Ok out
    /\ out !! "BLU" = Some (-5.0).
Proof. eexists. split; by vm_compute. Qed.

(** ** The end-to-end scenario *)

(** C5, as the code has it.  On the all-zero scenario every regime is
    [OK], [all_ok] is true, the pitch-link and the trim-tab suggestions are
    0 for each blade, and [suggest_weight] returns BLU, the blade at 180
    degrees (opposite the phase 0), with 5.0 grams: the raw 0 grams are
    raised to the 5 g minimum. *)
Theorem all_zero_scenario :
  regime_status "GROUND" (Some (measurement 0 0 0 0 0 0)) = Some OK
  /\ regime_status "HOVER" (Some (measurement 0 0 0 0 0 0)) = Some OK
  /\ regime_status "HORIZ" (Some (measurement 0 0 0 0 0 0)) = Some OK
  /\ all_ok all_zero = Ok true
  /\ (exists out, suggest_pitchlink all_zero = Ok out
        /\ forall b, b ∈ BLADES -> exists v, out !! b = Some v /\ v == 0)
  /\ (exists out, suggest_trimtabs all_zero = Ok out
        /\ forall b, b ∈ BLADES -> exists v, out !! b = Some v /\ v == 0)
  /\ suggest_weight all_zero = Ok ("BLU", 5.0)
  /\ BLADE_CLOCK_DEG !! "BLU" = Some 180.0
  /\ target_phase (measurement 0 0 0 0 0 0) == 180.
Proof.
  split_and!; try by vm_compute.
  - eexists. split; [by vm_compute|]. intros b Hb. unfold BLADES in Hb.
    repeat (apply elem_of_cons in Hb as [->|Hb];
      [eexists; split; by vm_compute|]).
    inversion Hb.
  - eexists. split; [by vm_compute|]. intros b Hb. unfold BLADES in Hb.
    repeat (apply elem_of_cons in Hb as [->|Hb];
      [eexists; split; by vm_compute|]).
    inversion Hb.
Qed.

(** C5, as the specification words it, fails on its last item: the blade
    returned on the all-zero scenario is not the blade at 0 degrees. *)
Lemma all_zero_scenario_weight_not_at_0 :
  ~ (regime_status "GROUND" (Some (measurement 0 0 0 0 0 0)) = Some OK
     /\ regime_status "HOVER" (Some (measurement 0 0 0 0 0 0)) = Some OK
     /\ regime_status "HORIZ" (Some (measurement 0 0 0 0 0 0)) = Some OK
     /\ all_ok all_zero = Ok true
     /\ (exists out, suggest_pitchlink all_zero = Ok out
           /\ forall b, b ∈ BLADES -> exists v, out !! b = Some v /\ v == 0)
     /\ (exists out, suggest_trimtabs all_zero = Ok out
           /\ forall b, b ∈ BLADES -> exists v, out !! b = Some v /\ v == 0)
     /\ (exists blade grams c,
           suggest_weight all_zero = Ok (blade, grams)
           /\ BLADE_CLOCK_DEG !! blade = Some c /\ c == 0 /\ grams == 5)).
Proof.
  intros (_ & _ & _ & _ & _ & _ & blade & grams & c & Hrun & Hc & E0 & _).
  assert (Hblu : suggest_weight all_zero = Ok ("BLU", 5.0)) by by vm_compute.
  rewrite Hblu in Hrun. injection Hrun as <- <-.
  assert (Hclock : BLADE_CLOCK_DEG !! "BLU" = Some 180.0) by by vm_compute.
  rewrite Hclock in Hc. injection Hc as <-. by vm_compute in E0.
Qed.

(** * Further properties of the solver *)

(** ** [round] and [_round_quarter] *)


Lemma inject_Z_opp_pred z : inject_Z (- z - 1) == - inject_Z z - 1.
Proof. unfold Qeq, inject_Z. simpl. lia. Qed.

Lemma Qfloor_unique x z :
  inject_Z z <= x -> x < inject_Z z + 1 -> Qfloor x = z.
Proof.
  intros Hlo Hhi. pose proof (Qfloor_le x) as Flo.
  pose proof (Qlt_floor x) as Fhi. rewrite inject_Z_plus in Fhi.
  change (inject_Z 1) with 1 in Fhi.
  assert (H1 : inject_Z z < inject_Z (Qfloor x + 1)).
  { rewrite inject_Z_plus. change (inject_Z 1) with 1. lra. }
  assert (H2 : inject_Z (Qfloor x) < inject_Z (z + 1)).
  { rewrite inject_Z_plus. change (inject_Z 1) with 1. lra. }
  rewrite <- Zlt_Qlt in H1, H2. lia.
Qed.

(** The three cases of [round]: below the half, above it, on it. *)
Lemma round_cases x :
  let f := Qfloor x in
  (x - inject_Z f < 1 # 2 /\ round x = f)
  \/ (1 # 2 < x - inject_Z f /\ round x = (f + 1)%Z)
  \/ (x - inject_Z f == 1 # 2
      /\ round x = if Z.even f then f else (f + 1)%Z).
Proof.
  cbv zeta. unfold round.
  destruct (Qcompare_spec (x - inject_Z (Qfloor x)) (1 # 2)) as [E|E|E].
  - right. right. done.
  - left. done.
  - right. left. done.
Qed.

Lemma round_inject_Z k : round (inject_Z k) = k.
Proof.
  destruct (round_cases (inject_Z k)) as [[_ H]|[[H _]|[H _]]];
    rewrite Qfloor_Z in *; [done|lra|lra].
Qed.

Lemma round_floor_bounds x :
  (Qfloor x <= round x)%Z /\ (round x <= Qfloor x + 1)%Z.
Proof.
  destruct (round_cases x) as [[_ ->]|[[_ ->]|[_ ->]]];
    try destruct (Z.even (Qfloor x)); lia.
Qed.

Lemma round_monotone x y : x <= y -> (round x <= round y)%Z.
Proof.
  intros Hxy. pose proof (Qfloor_resp_le x y Hxy) as Hf.
  destruct (round_floor_bounds x) as [_ Hx].
  destruct (round_floor_bounds y) as [Hy _].
  destruct (decide (Qfloor x = Qfloor y)) as [E|Hne]; [|lia].
  destruct (round_cases x) as [[Dx ->]|[[Dx ->]|[Dx ->]]];
    destruct (round_cases y) as [[Dy ->]|[[Dy ->]|[Dy ->]]];
    rewrite <- ?E in *; try destruct (Z.even (Qfloor x)); try lia; lra.
Qed.

Lemma round_opp x : round (- x) = (- round x)%Z.
Proof.
  pose proof (Qfloor_le x) as Flo. pose proof (Qlt_floor x) as Fhi.
  rewrite inject_Z_plus in Fhi. change (inject_Z 1) with 1 in Fhi.
  destruct (Qeq_dec x (inject_Z (Qfloor x))) as [Eint|Hfrac].
  - rewrite (round_proper _ _ Eint).
    assert (E' : - x == inject_Z (- Qfloor x))
      by (rewrite inject_Z_opp; lra).
    by rewrite (round_proper _ _ E'), !round_inject_Z.
  - assert (Hlt : inject_Z (Qfloor x) < x).
    { apply Qle_lteq in Flo as [|E]; [done|]. exfalso. apply Hfrac. lra. }
    pose proof (inject_Z_opp_pred (Qfloor x)) as Hinj.
    assert (Hf : Qfloor (- x) = (- Qfloor x - 1)%Z)
      by (apply Qfloor_unique; lra).
    rewrite <- Hf in Hinj.
    assert (Hev : Z.even (- Qfloor x - 1) = negb (Z.even (Qfloor x))).
    { unfold Z.sub. rewrite Z.even_add, Z.even_opp.
      by destruct (Z.even (Qfloor x)). }
    destruct (round_cases x) as [[Dx ->]|[[Dx ->]|[Dx ->]]];
      destruct (round_cases (- x)) as [[Dy ->]|[[Dy ->]|[Dy ->]]];
      rewrite ?Hf, ?Hev; try destruct (Z.even (Qfloor x)); simpl;
      try lia; lra.
Qed.


Lemma _round_quarter_monotone x y :
  x <= y -> _round_quarter x <= _round_quarter y.
Proof.
  intros Hxy. unfold _round_quarter.
  assert (H4 : x * 4.0 <= y * 4.0) by lra.
  pose proof (round_monotone _ _ H4) as Hr. rewrite Zle_Qle in Hr.
  set (rx := inject_Z (round (x * 4.0))) in *.
  set (ry := inject_Z (round (y * 4.0))) in *.
  assert (Ex : rx / 4.0 == rx * (1 # 4)) by field.
  assert (Ey : ry / 4.0 == ry * (1 # 4)) by field.
  clearbody rx ry. lra.
Qed.

Lemma _round_quarter_opp x : _round_quarter (- x) == - _round_quarter x.
Proof.
  unfold _round_quarter.
  assert (E : - x * 4.0 == - (x * 4.0)) by lra.
  rewrite (round_proper _ _ E), round_opp, inject_Z_opp. field.
Qed.




(** ** [track_spread] *)

Lemma blade_values_explicit m :
  well_formed m ->
  exists v1 v2 v3 v4,
    track_mm m !! "BLU" = Some v1 /\ track_mm m !! "GRN" = Some v2
    /\ track_mm m !! "YEL" = Some v3 /\ track_mm m !! "RED" = Some v4
    /\ list_comp (fun b => subscript (track_mm m) b) BLADES
       = Ok [v1; v2; v3; v4].
Proof.
  intros Hwf.
  destruct (well_formed_lookup m "BLU" Hwf) as [v1 H1]; [by_compute|].
  destruct (well_formed_lookup m "GRN" Hwf) as [v2 H2]; [by_compute|].
  destruct (well_formed_lookup m "YEL" Hwf) as [v3 H3]; [by_compute|].
  destruct (well_formed_lookup m "RED" Hwf) as [v4 H4]; [by_compute|].
  exists v1, v2, v3, v4. split_and!; try done.
  unfold BLADES, subscript. simpl. by rewrite H1, H2, H3, H4.
Qed.



(** ** [all_ok] and [regime_status] together *)

Lemma balance_limit_le regime : balance_limit regime <= 0.20.
Proof. unfold balance_limit. destruct (decide _); by vm_compute. Qed.

(** X4.  The legacy limits of [all_ok] are inside the acceptance band of
    [regime_status]: when [all_ok] answers [True], each of the three
    regimes has status [OK].  The converse fails: a spread of 18 mm is
    [OK] for [regime_status] and a failure for [all_ok]. *)
Theorem all_ok_implies_status_ok :
  (forall meas,
     all_ok meas = Ok true ->
     forall r, r ∈ REGIMES ->
       exists m, getitem meas r = Ok m
         /\ regime_status r (Some m) = Some OK)
  /\ (all_ok [("GROUND", measurement 0.0 18.0 0.0 0.0 0.10 0.0);
              ("HOVER", measurement 0.0 18.0 0.0 0.0 0.10 0.0);
              ("HORIZ", measurement 0.0 18.0 0.0 0.0 0.10 0.0)] = Ok false
      /\ forall r, r ∈ REGIMES ->
           regime_status r (Some (measurement 0.0 18.0 0.0 0.0 0.10 0.0))
           = Some OK).
Proof.
  split.
  - intros meas Hok r Hr.
    destruct (proj1 (all_ok_loop_true meas REGIMES) Hok r Hr)
      as (m & ts & Hm & Hts & Ht & Ha).
    exists m. split; [done|].
    rewrite (regime_status_unfold r m ts Hr Hts).
    pose proof (balance_limit_le r) as Hb.
    assert (S : gt ts (procedural_track_limit r)
                || gt (amp_ips (balance m)) (procedural_balance_limit r)
                = false).
    { apply gt_or_false. unfold procedural_track_limit,
        procedural_balance_limit, track_limit in *. intros [H|H]; lra. }
    assert (W : gt ts (acceptance_track_limit r)
                || gt (amp_ips (balance m)) (acceptance_balance_limit r)
                = false).
    { apply gt_or_false. unfold acceptance_track_limit,
        acceptance_balance_limit, track_limit in *. intros [H|H]; lra. }
    by rewrite S, W.
  - split; [by vm_compute|]. intros r Hr. unfold REGIMES in Hr.
    repeat (apply elem_of_cons in Hr as [->|Hr]; [by vm_compute|]).
    inversion Hr.
Qed.

Lemma all_ok_implies_status_ok_witness :
  all_ok all_zero = Ok true
  /\ forall r, r ∈ REGIMES ->
       exists m, getitem all_zero r = Ok m
         /\ regime_status r (Some m) = Some OK.
Proof.
  split; [by vm_compute|].
  apply (proj1 all_ok_implies_status_ok). by vm_compute.
Defined.



(** ** Which items of the mapping each function reads *)

Lemma contains_ext {V} (d d' : dict V) k :
  getitem d k = getitem d' k -> contains d k = contains d' k.
Proof.
  intros E. destruct (contains d k) eqn:Hc, (contains d' k) eqn:Hc'; try done.
  - destruct (contains_getitem d k Hc) as [v Hv].
    apply not_contains_getitem in Hc'. congruence.
  - destruct (contains_getitem d' k Hc') as [v Hv].
    apply not_contains_getitem in Hc. congruence.
Qed.

(** X6.  [suggest_pitchlink] reads the mapping at GROUND and HOVER only:
    two mappings that agree there, whatever their order and whatever else
    they hold, get the same answer, error included. *)
Theorem suggest_pitchlink_reads_ground_hover meas meas' :
  getitem meas "GROUND" = getitem meas' "GROUND" ->
  getitem meas "HOVER" = getitem meas' "HOVER" ->
  suggest_pitchlink meas = suggest_pitchlink meas'.
Proof.
  intros HG HH. unfold suggest_pitchlink. rewrite !used_regimes.
  rewrite (contains_ext meas meas' "GROUND" HG).
  rewrite (contains_ext meas meas' "HOVER" HH).
  destruct (contains meas' "GROUND"), (contains meas' "HOVER");
    simpl; rewrite ?HG, ?HH; reflexivity.
Qed.

Lemma suggest_pitchlink_reads_ground_hover_witness :
  getitem [("GROUND", measurement 12.0 1.0 0.0 (-2.0) 0.1 0.0);
           ("HOVER", measurement 10.0 (-3.0) 0.0 7.0 0.1 0.0)] "GROUND"
  = getitem [("HORIZ", measurement_no_yel);
             ("HOVER", measurement 10.0 (-3.0) 0.0 7.0 0.1 0.0);
             ("GROUND", measurement 12.0 1.0 0.0 (-2.0) 0.1 0.0)] "GROUND"
  /\ getitem [("GROUND", measurement 12.0 1.0 0.0 (-2.0) 0.1 0.0);
              ("HOVER", measurement 10.0 (-3.0) 0.0 7.0 0.1 0.0)] "HOVER"
     = getitem [("HORIZ", measurement_no_yel);
                ("HOVER", measurement 10.0 (-3.0) 0.0 7.0 0.1 0.0);
                ("GROUND", measurement 12.0 1.0 0.0 (-2.0) 0.1 0.0)] "HOVER"
  /\ suggest_pitchlink
       [("GROUND", measurement 12.0 1.0 0.0 (-2.0) 0.1 0.0);
        ("HOVER", measurement 10.0 (-3.0) 0.0 7.0 0.1 0.0)]
     = suggest_pitchlink
         [("HORIZ", measurement_no_yel);
          ("HOVER", measurement 10.0 (-3.0) 0.0 7.0 0.1 0.0);
          ("GROUND", measurement 12.0 1.0 0.0 (-2.0) 0.1 0.0)].
Proof.
  split; [vm_compute; reflexivity|]. split; [vm_compute; reflexivity|].
  apply suggest_pitchlink_reads_ground_hover; vm_compute; reflexivity.
Defined.

(** X7.  [suggest_trimtabs] reads the mapping at HORIZ only. *)
Theorem suggest_trimtabs_reads_horiz meas meas' :
  getitem meas "HORIZ" = getitem meas' "HORIZ" ->
  suggest_trimtabs meas = suggest_trimtabs meas'.
Proof.
  intros HH. unfold suggest_trimtabs.
  rewrite (contains_ext meas meas' "HORIZ" HH). by rewrite HH.
Qed.

Lemma suggest_trimtabs_reads_horiz_witness :
  getitem [("HORIZ", measurement 30.0 (-3.0) 0.0 7.0 0.1 0.0)] "HORIZ"
  = getitem [("GROUND", measurement_no_yel);
             ("HORIZ", measurement 30.0 (-3.0) 0.0 7.0 0.1 0.0)] "HORIZ"
  /\ suggest_trimtabs [("HORIZ", measurement 30.0 (-3.0) 0.0 7.0 0.1 0.0)]
     = suggest_trimtabs
         [("GROUND", measurement_no_yel);
          ("HORIZ", measurement 30.0 (-3.0) 0.0 7.0 0.1 0.0)].
Proof.
  split; [vm_compute; reflexivity|].
  apply suggest_trimtabs_reads_horiz; vm_compute; reflexivity.
Defined.

Lemma all_ok_loop_ext meas meas' rs :
  (forall r, r ∈ rs -> getitem meas r = getitem meas' r) ->
  all_ok_loop meas rs = all_ok_loop meas' rs.
Proof.
  induction rs as [|r rs IH]; intros H; simpl; [done|].
  assert (Hr : getitem meas r = getitem meas' r) by (apply H; constructor).
  rewrite (contains_ext meas meas' r Hr), Hr, IH; [done|].
  intros r' Hr'. apply H. by constructor.
Qed.

(** X8.  [all_ok] reads the mapping at GROUND, HOVER and HORIZ only:
    items under other keys, and the order of the items, do not change
    its answer. *)
Theorem all_ok_reads_regimes meas meas' :
  (forall r, r ∈ REGIMES -> getitem meas r = getitem meas' r) ->
  all_ok meas = all_ok meas'.
Proof. apply all_ok_loop_ext. Qed.

Lemma all_ok_reads_regimes_witness :
  (forall r, r ∈ REGIMES ->
     getitem all_zero r
     = getitem (("CRUISE", measurement_no_yel) :: reverse all_zero) r)
  /\ all_ok all_zero
     = all_ok (("CRUISE", measurement_no_yel) :: reverse all_zero).
Proof.
  assert (H : forall r, r ∈ REGIMES ->
            getitem all_zero r
            = getitem (("CRUISE", measurement_no_yel) :: reverse all_zero) r).
  { intros r Hr. unfold REGIMES in Hr.
    repeat (apply elem_of_cons in Hr as [->|Hr]; [vm_compute; reflexivity|]).
    inversion Hr. }
  split; [exact H|]. exact (all_ok_reads_regimes _ _ H).
Defined.

(** ** Missing blade keys in the suggestion functions *)

(** X9.  [suggest_trimtabs] does not put a default in place of a missing
    deviation: when the HORIZ measurement lacks a blade key, the call
    raises [KeyError] for a blade that is not there. *)
Theorem suggest_trimtabs_missing_key meas m :
  getitem meas "HORIZ" = Ok m ->
  (exists b, b ∈ BLADES /\ track_mm m !! b = None) ->
  exists k, suggest_trimtabs meas = Raise (KeyError k)
    /\ k ∈ BLADES /\ track_mm m !! k = None.
Proof.
  intros Hm (b & Hb & Hnone). unfold suggest_trimtabs.
  rewrite (getitem_contains meas "HORIZ" m Hm). cbn [negb].
  unfold BLADES, subscript. cbn [for_each]. rewrite Hm. cbn [bind].
  destruct (track_mm m !! "BLU") eqn:H1; cbn [bind for_each];
    [|exists "BLU"; split_and!; [done|by_compute|done]].
  destruct (track_mm m !! "GRN") eqn:H2; cbn [bind for_each];
    [|exists "GRN"; split_and!; [done|by_compute|done]].
  destruct (track_mm m !! "YEL") eqn:H3; cbn [bind for_each];
    [|exists "YEL"; split_and!; [done|by_compute|done]].
  destruct (track_mm m !! "RED") eqn:H4; cbn [bind for_each];
    [|exists "RED"; split_and!; [done|by_compute|done]].
  exfalso. unfold BLADES in Hb.
  repeat (apply elem_of_cons in Hb as [->|Hb]; [congruence|]).
  inversion Hb.
Qed.

Lemma suggest_trimtabs_missing_key_witness :
  getitem [("HORIZ", measurement_no_yel)] "HORIZ" = Ok measurement_no_yel
  /\ (exists b, b ∈ BLADES /\ track_mm measurement_no_yel !! b = None)
  /\ exists k,
       suggest_trimtabs [("HORIZ", measurement_no_yel)] = Raise (KeyError k)
       /\ k ∈ BLADES /\ track_mm measurement_no_yel !! k = None.
Proof.
  assert (H : exists b, b ∈ BLADES /\ track_mm measurement_no_yel !! b = None).
  { exists "YEL". split; [by_compute|vm_compute; reflexivity]. }
  split; [vm_compute; reflexivity|]. split; [exact H|].
  apply (suggest_trimtabs_missing_key
           [("HORIZ", measurement_no_yel)] measurement_no_yel);
    [vm_compute; reflexivity|exact H].
Defined.





Lemma not_well_formed_missing m :
  ~ well_formed m -> exists b, b ∈ BLADES /\ track_mm m !! b = None.
Proof.
  intros Hn. unfold well_formed in Hn.
  apply not_Forall_Exists in Hn; [|apply _].
  apply Exists_exists in Hn as (b & Hb & Hnone). exists b. split; [done|].
  by apply eq_None_not_Some.
Qed.

Lemma track_spread_raises m e :
  track_spread m = Raise e ->
  exists k, e = KeyError k /\ k ∈ BLADES /\ track_mm m !! k = None.
Proof.
  intros He. destruct (decide (well_formed m)) as [Hwf|Hn].
  - destruct (track_spread_total m Hwf) as [ts Hts]. congruence.
  - destruct (track_spread_missing m (not_well_formed_missing m Hn))
      as (k & Hk & Hin & Hnone).
    exists k. split_and!; [congruence|done|done].
Qed.

Lemma all_ok_loop_raises meas rs e :
  all_ok_loop meas rs = Raise e ->
  exists r m k, r ∈ rs /\ getitem meas r = Ok m
    /\ e = KeyError k /\ k ∈ BLADES /\ track_mm m !! k = None.
Proof.
  induction rs as [|r rs IH]; simpl; [done|].
  destruct (contains meas r) eqn:Hc; simpl; [|done].
  destruct (contains_getitem meas r Hc) as [m Hm]. rewrite Hm. cbn [bind].
  destruct (track_spread m) as [ts|e'] eqn:Hts; cbn [bind].
  - destruct (gt ts (track_limit r)); [done|].
    destruct (gt (amp_ips (balance m)) (balance_limit r)); [done|].
    intros He. destruct (IH He) as (r' & m' & k & Hr' & Hrest).
    exists r', m', k. split; [by constructor|done].
  - intros [= ->]. destruct (track_spread_raises m e Hts) as (k & Hk).
    exists r, m, k. split; [constructor|]. by split.
Qed.

(** X11.  [all_ok] lets the [KeyError] of [track_spread] through.  When
    it raises, the error is a [KeyError] for a blade that the measurement
    of one of the three regimes lacks; and it does raise whenever the
    GROUND measurement, the first one it looks at, lacks a blade key. *)
Theorem all_ok_key_error meas :
  (forall e, all_ok meas = Raise e ->
     exists r m k, r ∈ REGIMES /\ getitem meas r = Ok m
       /\ e = KeyError k /\ k ∈ BLADES /\ track_mm m !! k = None)
  /\ (forall m, getitem meas "GROUND" = Ok m -> ~ well_formed m ->
        exists k, all_ok meas = Raise (KeyError k)
          /\ k ∈ BLADES /\ track_mm m !! k = None).
Proof.
  split.
  - intros e. apply all_ok_loop_raises.
  - intros m Hm Hn. unfold all_ok, REGIMES. cbn [all_ok_loop].
    rewrite (getitem_contains meas "GROUND" m Hm). cbn [negb].
    rewrite Hm. cbn [bind].
    destruct (track_spread_missing m (not_well_formed_missing m Hn))
      as (k & Hk & Hin & Hnone).
    rewrite Hk. cbn [bind]. by exists k.
Qed.

Lemma all_ok_key_error_witness :
  getitem [("GROUND", measurement_no_yel)] "GROUND" = Ok measurement_no_yel
  /\ ~ well_formed measurement_no_yel
  /\ exists k, all_ok [("GROUND", measurement_no_yel)] = Raise (KeyError k)
       /\ k ∈ BLADES /\ track_mm measurement_no_yel !! k = None.
Proof.
  split; [vm_compute; reflexivity|]. split; [by_compute|].
  apply (proj2 (all_ok_key_error [("GROUND", measurement_no_yel)]));
    [vm_compute; reflexivity|by_compute].
Defined.

(** ** [suggest_weight]: no error, range of the answer *)


(** ** The local function [dist] *)










(** ** [suggest_trimtabs]: sign, saturation, symmetry *)

(** One run of [suggest_trimtabs] on a well-formed HORIZ measurement. *)
Lemma suggest_trimtabs_run meas m :
  getitem meas "HORIZ" = Ok m -> well_formed m ->
  exists out, suggest_trimtabs meas = Ok out /\
    forall b, b ∈ BLADES ->
      exists dev,
        track_mm m !! b = Some dev
        /\ out !! b
           = Some (max2 (-5.0)
                     (min2 5.0
                        (_round_quarter ((- dev) / TRIMTAB_MMTRACK_PER_MM)))).
Proof.
  intros Hm Hwf. unfold suggest_trimtabs.
  rewrite (getitem_contains meas "HORIZ" m Hm). cbn [negb].
  destruct (blade_values_explicit m Hwf)
    as (v1 & v2 & v3 & v4 & H1 & H2 & H3 & H4 & _).
  unfold BLADES. cbn [for_each]. rewrite Hm. cbn [bind].
  rewrite (subscript_Some _ _ _ H1), (subscript_Some _ _ _ H2),
    (subscript_Some _ _ _ H3), (subscript_Some _ _ _ H4). cbn [bind for_each].
  eexists. split; [reflexivity|]. intros b Hb.
  repeat (apply elem_of_cons in Hb as [->|Hb];
    [eexists; split; [eassumption|by simplify_map_eq]|]).
  inversion Hb.
Qed.

(** The tab bend computed from one deviation. *)
Lemma trimtab_value dev :
  let v := max2 (-5.0)
             (min2 5.0 (_round_quarter ((- dev) / TRIMTAB_MMTRACK_PER_MM))) in
  (75 <= dev -> v == -5)
  /\ (dev <= -75 -> v == 5)
  /\ (-75 <= dev -> dev <= 75 -> v == _round_quarter ((- dev) / 15.0))
  /\ (0 <= dev -> v <= 0)
  /\ (dev <= 0 -> 0 <= v).
Proof.
  cbv zeta. unfold TRIMTAB_MMTRACK_PER_MM.
  assert (Ediv : (- dev) / 15.0 == - dev * (1 # 15)) by field.
  assert (R5 : _round_quarter 5 == 5) by by vm_compute.
  assert (Rm5 : _round_quarter (-5) == -5) by by vm_compute.
  assert (R0 : _round_quarter 0 == 0) by by vm_compute.
  pose proof (_round_quarter_monotone ((- dev) / 15.0) 5) as Mhi.
  pose proof (_round_quarter_monotone (-5) ((- dev) / 15.0)) as Mlo.
  pose proof (_round_quarter_monotone ((- dev) / 15.0) (-5)) as Msat_lo.
  pose proof (_round_quarter_monotone 5 ((- dev) / 15.0)) as Msat_hi.
  pose proof (_round_quarter_monotone ((- dev) / 15.0) 0) as Mneg.
  pose proof (_round_quarter_monotone 0 ((- dev) / 15.0)) as Mpos.
  set (x := (- dev) / 15.0) in *. set (q := _round_quarter x) in *.
  clearbody q. clearbody x.
  destruct (max2_cases (-5.0) (min2 5.0 q)) as [[Hc ->]|[Hc ->]];
    destruct (min2_cases 5.0 q) as [[Hd E]|[Hd E]]; rewrite E in *;
    split_and!; intros;
    repeat match goal with
           | M : ?a <= ?b -> _ |- _ =>
               first [ assert (a <= b) as Hab by lra; specialize (M Hab);
                       clear Hab
                     | clear M ]
           end; lra.
Qed.

(** X15.  The tab bend opposes the deviation and saturates: for a
    well-formed HORIZ measurement, a blade that flies 75 mm or more high
    gets -5.0, one that flies 75 mm or more low gets 5.0, and in between
    the clamp changes nothing; a deviation that is not negative never
    gets a positive bend, and one that is not positive never a negative
    bend. *)
Theorem suggest_trimtabs_saturation meas m :
  getitem meas "HORIZ" = Ok m -> well_formed m ->
  exists out, suggest_trimtabs meas = Ok out /\
    forall b, b ∈ BLADES ->
      exists dev v,
        track_mm m !! b = Some dev /\ out !! b = Some v
        /\ (75 <= dev -> v == -5)
        /\ (dev <= -75 -> v == 5)
        /\ (-75 <= dev -> dev <= 75 -> v == _round_quarter ((- dev) / 15.0))
        /\ (0 <= dev -> v <= 0)
        /\ (dev <= 0 -> 0 <= v).
Proof.
  intros Hm Hwf.
  destruct (suggest_trimtabs_run meas m Hm Hwf) as (out & Hout & Hvals).
  exists out. split; [done|]. intros b Hb.
  destruct (Hvals b Hb) as (dev & Hdev & Hv).
  eexists dev, _. split; [done|]. split; [exact Hv|].
  apply trimtab_value.
Qed.

Lemma suggest_trimtabs_saturation_witness :
  getitem [("HORIZ", measurement 1000.0 (-75.0) 3.0 40.0 0.01 0.0)] "HORIZ"
    = Ok (measurement 1000.0 (-75.0) 3.0 40.0 0.01 0.0)
  /\ well_formed (measurement 1000.0 (-75.0) 3.0 40.0 0.01 0.0)
  /\ exists out,
       suggest_trimtabs
         [("HORIZ", measurement 1000.0 (-75.0) 3.0 40.0 0.01 0.0)] = Ok out
       /\ forall b, b ∈ BLADES ->
            exists dev v,
              track_mm (measurement 1000.0 (-75.0) 3.0 40.0 0.01 0.0) !! b
                = Some dev
              /\ out !! b = Some v
              /\ (75 <= dev -> v == -5)
              /\ (dev <= -75 -> v == 5)
              /\ (-75 <= dev -> dev <= 75 ->
                  v == _round_quarter ((- dev) / 15.0))
              /\ (0 <= dev -> v <= 0)
              /\ (dev <= 0 -> 0 <= v).
Proof.
  split; [vm_compute; reflexivity|]. split; [by_compute|].
  apply (suggest_trimtabs_saturation
           [("HORIZ", measurement 1000.0 (-75.0) 3.0 40.0 0.01 0.0)]);
    [vm_compute; reflexivity|by_compute].
Defined.

Lemma trimtab_value_compare d d' :
  let v := max2 (-5.0)
             (min2 5.0 (_round_quarter ((- d) / TRIMTAB_MMTRACK_PER_MM))) in
  let v' := max2 (-5.0)
              (min2 5.0 (_round_quarter ((- d') / TRIMTAB_MMTRACK_PER_MM))) in
  (d <= d' -> v' <= v) /\ (d' == - d -> v' == - v).
Proof.
  cbv zeta. unfold TRIMTAB_MMTRACK_PER_MM.
  assert (Ed : (- d) / 15.0 == - d * (1 # 15)) by field.
  assert (Ed' : (- d') / 15.0 == - d' * (1 # 15)) by field.
  pose proof (_round_quarter_monotone ((- d') / 15.0) ((- d) / 15.0)) as Mono.
  assert (Odd : d' == - d ->
            _round_quarter ((- d') / 15.0) == - _round_quarter ((- d) / 15.0)).
  { intros E. rewrite <- _round_quarter_opp. apply _round_quarter_proper.
    lra. }
  set (q := _round_quarter ((- d) / 15.0)) in *.
  set (q' := _round_quarter ((- d') / 15.0)) in *.
  clearbody q q'.
  destruct (max2_cases (-5.0) (min2 5.0 q)) as [[Hc ->]|[Hc ->]];
    destruct (min2_cases 5.0 q) as [[Hd E]|[Hd E]]; rewrite E in *;
    destruct (max2_cases (-5.0) (min2 5.0 q')) as [[Hc' ->]|[Hc' ->]];
    destruct (min2_cases 5.0 q') as [[Hd' E']|[Hd' E']]; rewrite E' in *;
    (split; intros H;
       [assert (Hle : (- d') / 15.0 <= (- d) / 15.0) by lra;
        specialize (Mono Hle); lra
       |specialize (Odd H); lra]).
Qed.

(** X16.  Two HORIZ measurements compared blade by blade: a larger
    deviation never gets a larger bend, and the opposite deviation gets
    the opposite bend (the rounding and the clamp are both symmetric
    about zero). *)
Theorem suggest_trimtabs_compare meas meas' m m' :
  getitem meas "HORIZ" = Ok m -> getitem meas' "HORIZ" = Ok m' ->
  well_formed m -> well_formed m' ->
  exists out out',
    suggest_trimtabs meas = Ok out /\ suggest_trimtabs meas' = Ok out'
    /\ forall b, b ∈ BLADES ->
         exists d d' v v',
           track_mm m !! b = Some d /\ track_mm m' !! b = Some d'
           /\ out !! b = Some v /\ out' !! b = Some v'
           /\ (d <= d' -> v' <= v)
           /\ (d' == - d -> v' == - v).
Proof.
  intros Hm Hm' Hwf Hwf'.
  destruct (suggest_trimtabs_run meas m Hm Hwf) as (out & Hout & Hvals).
  destruct (suggest_trimtabs_run meas' m' Hm' Hwf') as (out' & Hout' & Hvals').
  exists out, out'. split_and!; [done|done|]. intros b Hb.
  destruct (Hvals b Hb) as (d & Hd & Hv).
  destruct (Hvals' b Hb) as (d' & Hd' & Hv').
  eexists d, d', _, _. split_and!; [done|done|exact Hv|exact Hv'| |];
    apply (trimtab_value_compare d d').
Qed.

Lemma suggest_trimtabs_compare_witness :
  getitem [("HORIZ", measurement 30.0 (-7.5) 3.0 0.0 0.01 0.0)] "HORIZ"
    = Ok (measurement 30.0 (-7.5) 3.0 0.0 0.01 0.0)
  /\ getitem [("HORIZ", measurement (-30.0) 7.5 (-3.0) 0.0 0.01 0.0)] "HORIZ"
     = Ok (measurement (-30.0) 7.5 (-3.0) 0.0 0.01 0.0)
  /\ well_formed (measurement 30.0 (-7.5) 3.0 0.0 0.01 0.0)
  /\ well_formed (measurement (-30.0) 7.5 (-3.0) 0.0 0.01 0.0)
  /\ exists out out',
       suggest_trimtabs [("HORIZ", measurement 30.0 (-7.5) 3.0 0.0 0.01 0.0)]
         = Ok out
       /\ suggest_trimtabs
            [("HORIZ", measurement (-30.0) 7.5 (-3.0) 0.0 0.01 0.0)]
          = Ok out'
       /\ forall b, b ∈ BLADES ->
            exists d d' v v',
              track_mm (measurement 30.0 (-7.5) 3.0 0.0 0.01 0.0) !! b
                = Some d
              /\ track_mm (measurement (-30.0) 7.5 (-3.0) 0.0 0.01 0.0) !! b
                 = Some d'
              /\ out !! b = Some v /\ out' !! b = Some v'
              /\ (d <= d' -> v' <= v)
              /\ (d' == - d -> v' == - v).
Proof.
  split; [vm_compute; reflexivity|]. split; [vm_compute; reflexivity|].
  split; [by_compute|]. split; [by_compute|].
  apply (suggest_trimtabs_compare
           [("HORIZ", measurement 30.0 (-7.5) 3.0 0.0 0.01 0.0)]
           [("HORIZ", measurement (-30.0) 7.5 (-3.0) 0.0 0.01 0.0)]);
    first [by_compute | vm_compute; reflexivity].
Defined.

(** ** [suggest_weight]: the grams *)

Lemma grams_monotone a a' :
  a <= a' ->
  max2 5.0 (min2 120.0 (inject_Z (round (a / BOLT_IPS_PER_GRAM / 5.0)) * 5.0))
  <= max2 5.0
       (min2 120.0 (inject_Z (round (a' / BOLT_IPS_PER_GRAM / 5.0)) * 5.0)).
Proof.
  intros Ha. unfold BOLT_IPS_PER_GRAM.
  assert (E : a / 0.0020 / 5.0 == a * 100) by field.
  assert (E' : a' / 0.0020 / 5.0 == a' * 100) by field.
  assert (Hx : a / 0.0020 / 5.0 <= a' / 0.0020 / 5.0) by lra.
  pose proof (round_monotone _ _ Hx) as Hr. rewrite Zle_Qle in Hr.
  set (g := inject_Z (round (a / 0.0020 / 5.0))) in *.
  set (g' := inject_Z (round (a' / 0.0020 / 5.0))) in *.
  clearbody g g'.
  destruct (max2_cases 5.0 (min2 120.0 (g * 5.0))) as [[Hc ->]|[Hc ->]];
    destruct (min2_cases 120.0 (g * 5.0)) as [[Hd Eg]|[Hd Eg]];
    rewrite Eg in *;
    destruct (max2_cases 5.0 (min2 120.0 (g' * 5.0))) as [[Hc' ->]|[Hc' ->]];
    destruct (min2_cases 120.0 (g' * 5.0)) as [[Hd' Eg']|[Hd' Eg']];
    rewrite Eg' in *; lra.
Qed.

(** X17.  The grams grow with the amplitude: of two non-empty mappings,
    the one whose selected measurement has the larger amplitude never gets
    the smaller weight. *)
Theorem suggest_weight_grams_monotone
    meas meas' r r' w w' blade blade' grams grams' :
  worst_regime meas = Ok r -> getitem meas r = Ok w ->
  worst_regime meas' = Ok r' -> getitem meas' r' = Ok w' ->
  suggest_weight meas = Ok (blade, grams) ->
  suggest_weight meas' = Ok (blade', grams') ->
  amp_ips (balance w) <= amp_ips (balance w') ->
  grams <= grams'.
Proof.
  intros Hr Hw Hr' Hw' Hrun Hrun' Hamp.
  destruct (suggest_weight_run meas (worst_regime_nonempty meas r Hr))
    as (r0 & w0 & b0 & i & Hr0 & Hw0 & _ & Hrun0 & _).
  destruct (suggest_weight_run meas' (worst_regime_nonempty meas' r' Hr'))
    as (r1 & w1 & b1 & i' & Hr1 & Hw1 & _ & Hrun1 & _).
  assert (r0 = r) as -> by congruence.
  assert (w0 = w) as -> by congruence.
  assert (r1 = r') as -> by congruence.
  assert (w1 = w') as -> by congruence.
  rewrite Hrun in Hrun0. rewrite Hrun' in Hrun1.
  injection Hrun0 as _ ->. injection Hrun1 as _ ->.
  by apply grams_monotone.
Qed.

Lemma suggest_weight_grams_monotone_witness :
  exists grams grams',
    suggest_weight [("GROUND", measurement 0.0 1.0 2.0 3.0 0.03 10.0)]
      = Ok ("BLU", grams)
    /\ suggest_weight [("HOVER", measurement 0.0 1.0 2.0 3.0 0.10 200.0)]
       = Ok ("YEL", grams')
    /\ grams <= grams'.
Proof.
  eexists _, _. split; [vm_compute; reflexivity|].
  split; [vm_compute; reflexivity|].
  eapply (suggest_weight_grams_monotone
            [("GROUND", measurement 0.0 1.0 2.0 3.0 0.03 10.0)]
            [("HOVER", measurement 0.0 1.0 2.0 3.0 0.10 200.0)]);
    [vm_compute; reflexivity | vm_compute; reflexivity
    | vm_compute; reflexivity | vm_compute; reflexivity
    | vm_compute; reflexivity | vm_compute; reflexivity
    | by vm_compute].
Defined.

(** X18.  Which regime is selected when amplitudes tie follows the order
    of the mapping, but the grams do not: two mappings that hold the same
    measurement under every key, in whatever order, get the same grams. *)
Theorem suggest_weight_grams_order meas meas' blade blade' grams grams' :
  (forall k, getitem meas k = getitem meas' k) ->
  suggest_weight meas = Ok (blade, grams) ->
  suggest_weight meas' = Ok (blade', grams') ->
  grams == grams'.
Proof.
  intros Hsame Hrun Hrun'.
  destruct meas as [|[k v] meas0] eqn:E.
  { destruct meas' as [|[k' v'] meas0'].
    - simpl in Hrun, Hrun'. injection Hrun as _ <-. by injection Hrun' as _ <-.
    - specialize (Hsame k'). simpl in Hsame.
      by rewrite decide_True in Hsame by done. }
  rewrite <- E in *. assert (Hne : meas <> []) by (by rewrite E). clear E.
  assert (Hne' : meas' <> []).
  { intros ->. destruct meas as [|[k0 v0] ?]; [done|].
    specialize (Hsame k0). simpl in Hsame.
    by rewrite decide_True in Hsame by done. }
  destruct (suggest_weight_run meas Hne)
    as (r & w & b0 & i & _ & Hw & Hmax & Hrun0 & _).
  destruct (suggest_weight_run meas' Hne')
    as (r' & w' & b1 & i' & _ & Hw' & Hmax' & Hrun1 & _).
  rewrite Hrun in Hrun0. rewrite Hrun' in Hrun1.
  injection Hrun0 as _ ->. injection Hrun1 as _ ->.
  assert (H1 : amp_ips (balance w) <= amp_ips (balance w')).
  { apply (Hmax' r w). by rewrite <- Hsame. }
  assert (H2 : amp_ips (balance w') <= amp_ips (balance w)).
  { apply (Hmax r' w'). by rewrite Hsame. }
  apply Qle_antisym; by apply grams_monotone.
Qed.

Lemma suggest_weight_grams_order_witness :
  (forall k,
     getitem [("GROUND", measurement 0.0 1.0 2.0 3.0 0.10 45.0);
              ("HOVER", measurement 0.0 1.0 2.0 3.0 0.10 135.0)] k
     = getitem [("HOVER", measurement 0.0 1.0 2.0 3.0 0.10 135.0);
                ("GROUND", measurement 0.0 1.0 2.0 3.0 0.10 45.0)] k)
  /\ exists grams grams',
       suggest_weight [("GROUND", measurement 0.0 1.0 2.0 3.0 0.10 45.0);
                       ("HOVER", measurement 0.0 1.0 2.0 3.0 0.10 135.0)]
         = Ok ("BLU", grams)
       /\ suggest_weight [("HOVER", measurement 0.0 1.0 2.0 3.0 0.10 135.0);
                          ("GROUND", measurement 0.0 1.0 2.0 3.0 0.10 45.0)]
          = Ok ("GRN", grams')
       /\ grams == grams'.
Proof.
  assert (H : forall k,
     getitem [("GROUND", measurement 0.0 1.0 2.0 3.0 0.10 45.0);
              ("HOVER", measurement 0.0 1.0 2.0 3.0 0.10 135.0)] k
     = getitem [("HOVER", measurement 0.0 1.0 2.0 3.0 0.10 135.0);
                ("GROUND", measurement 0.0 1.0 2.0 3.0 0.10 45.0)] k).
  { intros k. simpl.
    destruct (decide (k = "GROUND")) as [E1|?],
             (decide (k = "HOVER")) as [E2|?]; try done.
    rewrite E1 in E2. discriminate E2. }
  split; [exact H|]. eexists _, _.
  split; [vm_compute; reflexivity|]. split; [vm_compute; reflexivity|].
  eapply (suggest_weight_grams_order _ _ _ _ _ _ H);
    vm_compute; reflexivity.
Defined.

(** ** [suggest_pitchlink]: GROUND and HOVER weigh the same *)



(** * Properties of the double-precision embedding *)

(** ** The order of the doubles *)

Lemma F64_lt_place x y :
  F64.lt x y = true <->
  exists p q, F64.place x = Some p /\ F64.place y = Some q /\ F64.before p q.
Proof.
  unfold F64.lt, SFltb, SFcompare.
  destruct x as [[]|[]| |[] mx ex], y as [[]|[]| |[] my ey];
    try change (Pos.compare_cont Eq mx my) with (Pos.compare mx my);
    try destruct (Z.compare_spec ex ey);
    try destruct (Pos.compare_spec mx my);
    simpl; (split;
      [ intros Hlt;
        first [ discriminate Hlt
              | eexists _, _; split; [reflexivity|]; split; [reflexivity|];
                simpl; lia ]
      | intros (p & q & Hp & Hq & Hb);
        first [ discriminate Hp | discriminate Hq
              | simplify_eq; simpl in Hb; first [reflexivity | lia] ] ]).
Qed.

Lemma F64_eq_place x y :
  SFcompare x y = Some Eq -> F64.place x = F64.place y /\ F64.place x <> None.
Proof.
  unfold SFcompare.
  destruct x as [[]|[]| |[] mx ex], y as [[]|[]| |[] my ey];
    try change (Pos.compare_cont Eq mx my) with (Pos.compare mx my);
    try destruct (Z.compare_spec ex ey);
    try destruct (Pos.compare_spec mx my);
    simpl; intros Heq; first [discriminate Heq | subst; done].
Qed.

Lemma F64_before_trans p q r :
  F64.before p q -> F64.before q r -> F64.before p r.
Proof.
  destruct p as [[p1 p2] p3], q as [[q1 q2] q3], r as [[r1 r2] r3].
  simpl. lia.
Qed.

Lemma F64_before_irrefl p : ~ F64.before p p.
Proof. destruct p as [[p1 p2] p3]. simpl. lia. Qed.

Lemma F64_lt_trans x y z :
  F64.lt x y = true -> F64.lt y z = true -> F64.lt x z = true.
Proof.
  rewrite !F64_lt_place.
  intros (p & q & Hp & Hq & H1) (q' & r & Hq' & Hr & H2).
  assert (q' = q) as -> by congruence.
  exists p, r. split_and!; [done|done|by eapply F64_before_trans].
Qed.

Lemma F64_lt_asym x y : F64.lt x y = true -> F64.lt y x = false.
Proof.
  intros H. destruct (F64.lt y x) eqn:E; [|done]. exfalso.
  pose proof (F64_lt_trans x y x H E) as Hxx.
  apply F64_lt_place in Hxx as (p & q & Hp & Hq & Hb).
  assert (q = p) as -> by congruence. by apply F64_before_irrefl in Hb.
Qed.

Lemma F64_lt_irrefl x : F64.lt x x = false.
Proof.
  destruct (F64.lt x x) eqn:E; [|done].
  by rewrite (F64_lt_asym x x E) in E.
Qed.

(** A double that compares equal to [y] is below whatever [y] is below. *)
Lemma F64_eq_lt x y z :
  SFcompare x y = Some Eq -> F64.lt y z = true -> F64.lt x z = true.
Proof.
  intros He. apply F64_eq_place in He as [He _]. rewrite !F64_lt_place.
  intros (q & r & Hq & Hr & H). exists q, r. by rewrite He.
Qed.

Lemma F64_eq_not_lt x y : SFcompare x y = Some Eq -> F64.lt y x = false.
Proof.
  intros He. destruct (F64.lt y x) eqn:E; [|done].
  pose proof (F64_eq_lt x y x He E) as Hxx. by rewrite F64_lt_irrefl in Hxx.
Qed.

(** ** [max] and [min] with a key, on doubles *)

Section F64KeyLoops.
Context {A : Type} (key : A -> result F64.float) (f : A -> F64.float).

(** No item has a key above that of the item [max] returns. *)
Lemma F64_max_loop_spec (l : list A) (best : A) :
  (forall x, x ∈ l -> key x = Ok (f x)) ->
  exists r, F64.max_loop key best (f best) l = Ok r
    /\ (r = best \/ (r ∈ l /\ F64.lt (f best) (f r) = true))
    /\ (forall x, x ∈ l -> F64.lt (f r) (f x) = false).
Proof.
  revert best. induction l as [|x l IH]; intros best Hk; simpl.
  - exists best. split_and!; [done|by left|]. intros x Hx. inversion Hx.
  - rewrite (Hk x) by constructor. cbn [bind].
    assert (Hl : forall y, y ∈ l -> key y = Ok (f y)).
    { intros y Hy. apply Hk. by constructor. }
    change (F64.gt (f x) (f best)) with (F64.lt (f best) (f x)).
    destruct (F64.lt (f best) (f x)) eqn:E.
    + destruct (IH x Hl) as (r & -> & Hr & Hall). exists r.
      split_and!; [done| |].
      * right. destruct Hr as [->|[Hr Hlt]].
        -- split; [constructor|done].
        -- split; [by constructor|by eapply F64_lt_trans].
      * intros y Hy. apply elem_of_cons in Hy as [->|Hy]; [|by apply Hall].
        destruct Hr as [->|[_ Hlt]];
          [apply F64_lt_irrefl|by apply F64_lt_asym].
    + destruct (IH best Hl) as (r & -> & Hr & Hall). exists r.
      split_and!; [done| |].
      * destruct Hr as [->|[Hr Hlt]]; [by left|right].
        split; [by constructor|done].
      * intros y Hy. apply elem_of_cons in Hy as [->|Hy]; [|by apply Hall].
        destruct Hr as [->|[_ Hlt]]; [done|].
        destruct (F64.lt (f r) (f x)) eqn:E'; [|done].
        by rewrite (F64_lt_trans _ _ _ Hlt E') in E.
Qed.

Lemma F64_max_key_spec (l : list A) :
  l <> [] ->
  (forall x, x ∈ l -> key x = Ok (f x)) ->
  exists r, F64.max_key key l = Ok r /\ r ∈ l
    /\ (forall x, x ∈ l -> F64.lt (f r) (f x) = false).
Proof.
  destruct l as [|x l]; [done|]. intros _ Hk. simpl.
  rewrite (Hk x) by constructor. cbn [bind].
  destruct (F64_max_loop_spec l x) as (r & -> & Hr & Hall).
  { intros y Hy. apply Hk. by constructor. }
  exists r. split_and!; [done| |].
  - destruct Hr as [->|[Hr _]]; [constructor|by constructor].
  - intros y Hy. apply elem_of_cons in Hy as [->|Hy]; [|by apply Hall].
    destruct Hr as [->|[_ Hlt]]; [apply F64_lt_irrefl|by apply F64_lt_asym].
Qed.

(** No item has a key below that of the item [min] returns, and no item
    before it has a key equal to its key. *)
Lemma F64_min_loop_spec (l : list A) (best : A) :
  (forall x, x ∈ l -> key x = Ok (f x)) ->
  exists r, F64.min_loop key best (f best) l = Ok r
    /\ F64.lt (f best) (f r) = false
    /\ (forall x, x ∈ l -> F64.lt (f x) (f r) = false)
    /\ (r = best
        \/ exists i, l !! i = Some r /\ F64.lt (f r) (f best) = true
             /\ forall j y, (j < i)%nat -> l !! j = Some y ->
                  SFcompare (f y) (f r) <> Some Eq).
Proof.
  revert best. induction l as [|x l IH]; intros best Hk; simpl.
  - exists best. split_and!; [done|apply F64_lt_irrefl| |by left].
    intros x Hx. inversion Hx.
  - rewrite (Hk x) by constructor. cbn [bind].
    assert (Hl : forall y, y ∈ l -> key y = Ok (f y)).
    { intros y Hy. apply Hk. by constructor. }
    destruct (F64.lt (f x) (f best)) eqn:E.
    + destruct (IH x Hl) as (r & -> & Hb & Hall & Hfirst). exists r.
      split_and!; [done| | |].
      * destruct Hfirst as [->|(i & _ & Hlt & _)]; [by apply F64_lt_asym|].
        apply F64_lt_asym. by eapply F64_lt_trans.
      * intros y Hy. apply elem_of_cons in Hy as [->|Hy]; [done|by apply Hall].
      * right. destruct Hfirst as [->|(i & Hi & Hlt & Hbefore)].
        -- exists 0%nat. split_and!; [done|done|]. intros j y Hj. lia.
        -- exists (S i). split_and!; [done|by eapply F64_lt_trans|].
           intros [|j] y Hj Hy; simpl in Hy.
           ++ injection Hy as <-. intros Heq.
              by rewrite (F64_eq_not_lt _ _ Heq) in Hlt.
           ++ apply (Hbefore j); [lia|done].
    + destruct (IH best Hl) as (r & -> & Hb & Hall & Hfirst). exists r.
      split_and!; [done|done| |].
      * intros y Hy. apply elem_of_cons in Hy as [->|Hy]; [|by apply Hall].
        destruct Hfirst as [->|(i & _ & Hlt & _)]; [done|].
        destruct (F64.lt (f x) (f r)) eqn:E'; [|done].
        by rewrite (F64_lt_trans _ _ _ E' Hlt) in E.
      * destruct Hfirst as [->|(i & Hi & Hlt & Hbefore)]; [by left|right].
        exists (S i). split_and!; [done|done|].
        intros [|j] y Hj Hy; simpl in Hy.
        -- injection Hy as <-. intros Heq.
           by rewrite (F64_eq_lt _ _ _ Heq Hlt) in E.
        -- apply (Hbefore j); [lia|done].
Qed.

Lemma F64_min_key_spec (l : list A) :
  l <> [] ->
  (forall x, x ∈ l -> key x = Ok (f x)) ->
  exists r i, F64.min_key key l = Ok r
    /\ l !! i = Some r
    /\ (forall x, x ∈ l -> F64.lt (f x) (f r) = false)
    /\ (forall j y, (j < i)%nat -> l !! j = Some y ->
          SFcompare (f y) (f r) <> Some Eq).
Proof.
  destruct l as [|x l]; [done|]. intros _ Hk. simpl.
  rewrite (Hk x) by constructor. cbn [bind].
  destruct (F64_min_loop_spec l x) as (r & -> & Hb & Hall & Hfirst).
  { intros y Hy. apply Hk. by constructor. }
  exists r.
  assert (Hall' : forall y, y ∈ x :: l -> F64.lt (f y) (f r) = false).
  { intros y Hy. apply elem_of_cons in Hy as [->|Hy]; [done|by apply Hall]. }
  destruct Hfirst as [->|(i & Hi & Hlt & Hbefore)].
  - exists 0%nat. split_and!; [done|done|done|intros j y Hj; lia].
  - exists (S i). split_and!; [done|done|done|].
    intros [|j] y Hj Hy; simpl in Hy.
    + injection Hy as <-. intros Heq.
      by rewrite (F64_eq_not_lt _ _ Heq) in Hlt.
    + apply (Hbefore j); [lia|done].
Qed.
End F64KeyLoops.

(** ** [round] on doubles *)

(** [round] fails on the infinities and on NaN only; otherwise it returns
    an integer nearest to the exact value of its argument. *)
Lemma F64_round_cases x :
  (x = S754_nan /\ F64.round x = Raise ValueError)
  \/ (exists s, x = S754_infinity s /\ F64.round x = Raise OverflowError)
  \/ (exists k, F64.round x = Ok k
        /\ inject_Z k - F64.to_Q x <= 1 # 2
        /\ F64.to_Q x - inject_Z k <= 1 # 2).
Proof.
  destruct x as [s|s| |s m e].
  - right. right. exists 0%Z. split_and!; [done|by vm_compute|by vm_compute].
  - right. left. by exists s.
  - by left.
  - right. right. exists (Py.round (F64.to_Q (S754_finite s m e))).
    split; [done|]. apply round_bounds.
Qed.

Lemma F64_clamp_bounds y :
  let g := F64.max2 (F64.of_int 5) (F64.min2 (F64.of_int 120) y) in
  F64.lt g (F64.of_int 5) = false /\ F64.lt (F64.of_int 120) g = false.
Proof.
  cbv zeta. unfold F64.max2, F64.min2.
  destruct (F64.lt y (F64.of_int 120)) eqn:E120.
  - change (F64.gt y (F64.of_int 5)) with (F64.lt (F64.of_int 5) y).
    destruct (F64.lt (F64.of_int 5) y) eqn:E5.
    + split; by apply F64_lt_asym.
    + split; by vm_compute.
  - split; by vm_compute.
Qed.

(** ** [suggest_weight] on doubles *)

Lemma F64_blade_clock_lookup b :
  b ∈ BLADES -> F64.BLADE_CLOCK_DEG !! b = Some (F64.blade_clock b).
Proof.
  intros Hb. unfold BLADES in Hb.
  repeat (apply elem_of_cons in Hb as [->|Hb]; [by vm_compute|]).
  inversion Hb.
Qed.

Lemma F64_worst_regime_spec meas :
  meas <> [] ->
  exists r w, F64.worst_regime meas = Ok r
    /\ getitem meas r = Ok w
    /\ forall r' m', getitem meas r' = Ok m' ->
         F64.lt (F64.amp_ips (F64.balance w))
                (F64.amp_ips (F64.balance m')) = false.
Proof.
  intros Hne.
  set (f := fun r => match getitem meas r with
                     | Ok m => F64.amp_ips (F64.balance m)
                     | Raise _ => S754_nan
                     end).
  destruct (F64_max_key_spec
              (fun r => let* m := getitem meas r in
                        Ok (F64.amp_ips (F64.balance m)))
              f (keys meas)) as (r & Hr & Hin & Hmax).
  - destruct meas; [done|]. done.
  - intros r Hr. unfold f.
    destruct (contains_getitem meas r) as [m ->]; [|done].
    by apply bool_decide_eq_true_2.
  - destruct (contains_getitem meas r) as [w Hw];
      [by apply bool_decide_eq_true_2|].
    exists r, w. split_and!; [done|done|].
    intros r' m' Hm'. specialize (Hmax r'). unfold f in Hmax.
    rewrite Hm', Hw in Hmax. apply Hmax.
    apply getitem_contains in Hm'. by apply bool_decide_eq_true_1 in Hm'.
Qed.

(** What [suggest_weight] does with the measurement it selected. *)
Lemma F64_suggest_weight_body meas :
  meas <> [] ->
  F64.suggest_weight meas =
    let* worst_r := F64.worst_regime meas in
    let* m := getitem meas worst_r in
    let* blade :=
      F64.min_key (fun bb => let* c := subscript F64.BLADE_CLOCK_DEG bb in
                             Ok (F64.dist (F64.target_phase m) c)) BLADES in
    let* k := F64.round (F64.div (F64.div (F64.amp_ips (F64.balance m))
                                          F64.BOLT_IPS_PER_GRAM)
                                 (F64.of_int 5)) in
    Ok (blade,
        F64.max2 (F64.of_int 5)
          (F64.min2 (F64.of_int 120) (F64.mul (F64.of_int k) (F64.of_int 5)))).
Proof. intros Hne. by destruct meas. Qed.

(** One run of [suggest_weight] on a non-empty mapping: the measurement
    [w] selected, the blade chosen with its position [i] in [BLADES], and
    what is left to do, the rounding of the grams. *)
Lemma F64_suggest_weight_run meas :
  meas <> [] ->
  exists r w blade i,
    F64.worst_regime meas = Ok r
    /\ getitem meas r = Ok w
    /\ (forall r' m', getitem meas r' = Ok m' ->
          F64.lt (F64.amp_ips (F64.balance w))
                 (F64.amp_ips (F64.balance m')) = false)
    /\ BLADES !! i = Some blade
    /\ (forall b', b' ∈ BLADES ->
          F64.lt (F64.dist (F64.target_phase w) (F64.blade_clock b'))
                 (F64.dist (F64.target_phase w) (F64.blade_clock blade))
          = false)
    /\ (forall j b', (j < i)%nat -> BLADES !! j = Some b' ->
          SFcompare (F64.dist (F64.target_phase w) (F64.blade_clock b'))
                    (F64.dist (F64.target_phase w) (F64.blade_clock blade))
          <> Some Eq)
    /\ F64.suggest_weight meas =
         let* k := F64.round (F64.div (F64.div (F64.amp_ips (F64.balance w))
                                               F64.BOLT_IPS_PER_GRAM)
                                      (F64.of_int 5)) in
         Ok (blade,
             F64.max2 (F64.of_int 5)
               (F64.min2 (F64.of_int 120)
                  (F64.mul (F64.of_int k) (F64.of_int 5)))).
Proof.
  intros Hne.
  destruct (F64_worst_regime_spec meas Hne) as (r & w & Hr & Hw & Hmax).
  destruct (F64_min_key_spec
              (fun bb => let* c := subscript F64.BLADE_CLOCK_DEG bb in
                         Ok (F64.dist (F64.target_phase w) c))
              (fun bb => F64.dist (F64.target_phase w) (F64.blade_clock bb))
              BLADES) as (blade & i & Hmin & Hi & Hle & Hfirst); [done| |].
  { intros b Hb.
    by rewrite (subscript_Some _ _ _ (F64_blade_clock_lookup b Hb)). }
  exists r, w, blade, i. split_and!; try done.
  rewrite (F64_suggest_weight_body meas Hne), Hr. cbn [bind].
  rewrite Hw. cbn [bind]. by rewrite Hmin.
Qed.

(** C3, in double precision.  On a non-empty mapping [suggest_weight]
    selects a measurement [w] whose amplitude no other exceeds, computes
    the target [(phase_deg + 180.0) % 360.0] and picks a blade such that
    no blade has a smaller computed distance [dist] to that target.  What
    it answers depends on the double [q = amp / 0.0020 / 5.0]: when [q]
    is NaN it raises [ValueError], when [q] is infinite it raises
    [OverflowError], and otherwise it returns the blade with the grams
    [max(5.0, min(120.0, k * 5.0))], where [k] is an integer nearest to
    [q]; these grams are never below 5.0 nor above 120.0.  For a single
    regime with phase 0 and amplitude 0.01 the answer is BLU, the blade at
    180 degrees, with 5.0 grams. *)
Theorem F64_suggest_weight_spec :
  (forall meas, meas <> [] ->
     exists r w blade,
       getitem meas r = Ok w
       /\ (forall r' m', getitem meas r' = Ok m' ->
             F64.lt (F64.amp_ips (F64.balance w))
                    (F64.amp_ips (F64.balance m')) = false)
       /\ blade ∈ BLADES
       /\ (forall b', b' ∈ BLADES ->
             F64.lt (F64.dist (F64.target_phase w) (F64.blade_clock b'))
                    (F64.dist (F64.target_phase w) (F64.blade_clock blade))
             = false)
       /\ let q := F64.div (F64.div (F64.amp_ips (F64.balance w))
                                    F64.BOLT_IPS_PER_GRAM)
                           (F64.of_int 5) in
          (q = S754_nan /\ F64.suggest_weight meas = Raise ValueError)
          \/ (exists s, q = S754_infinity s
                /\ F64.suggest_weight meas = Raise OverflowError)
          \/ (exists k grams,
                F64.suggest_weight meas = Ok (blade, grams)
                /\ inject_Z k - F64.to_Q q <= 1 # 2
                /\ F64.to_Q q - inject_Z k <= 1 # 2
                /\ grams = F64.max2 (F64.of_int 5)
                             (F64.min2 (F64.of_int 120)
                                (F64.mul (F64.of_int k) (F64.of_int 5)))
                /\ F64.lt grams (F64.of_int 5) = false
                /\ F64.lt (F64.of_int 120) grams = false))
  /\ (forall r tm,
        F64.suggest_weight
          [(r, {| F64.track_mm := tm;
                  F64.balance := {| F64.amp_ips := F64.dec 1 100;
                                    F64.phase_deg := F64.of_int 0 |} |})]
        = Ok ("BLU", F64.of_int 5))
  /\ F64.BLADE_CLOCK_DEG !! "BLU" = Some (F64.of_int 180).
Proof.
  split_and!.
  - intros meas Hne.
    destruct (F64_suggest_weight_run meas Hne)
      as (r & w & blade & i & _ & Hw & Hmax & Hi & Hle & _ & Hrun).
    exists r, w, blade. split_and!; [done|done| |done|].
    { by apply list_elem_of_lookup_2 in Hi. }
    cbv zeta. rewrite Hrun.
    destruct (F64_round_cases
                (F64.div (F64.div (F64.amp_ips (F64.balance w))
                                  F64.BOLT_IPS_PER_GRAM) (F64.of_int 5)))
      as [[Hq ->]|[(s & Hq & ->)|(k & -> & Hk1 & Hk2)]].
    + left. by split.
    + right. left. exists s. by split.
    + right. right. eexists k, _. cbn [bind].
      split_and!; [reflexivity|done|done|reflexivity| |];
        apply F64_clamp_bounds.
  - intros r tm. unfold F64.suggest_weight, keys. simpl.
    rewrite decide_True by done. cbn [bind].
    rewrite decide_True by done. by vm_compute.
  - by vm_compute.
Qed.

Lemma F64_suggest_weight_spec_witness :
  [("HOVER", F64.measurement (F64.of_int 0) (F64.of_int 1) (F64.of_int 2)
               (F64.of_int 3) (F64.dec 5 100) (F64.of_int 300));
   ("HORIZ", F64.measurement (F64.of_int 0) (F64.of_int 1) (F64.of_int 2)
               (F64.of_int 3) (F64.dec 12 100) (F64.of_int 100))] <> []
  /\ exists r w blade,
       getitem
         [("HOVER", F64.measurement (F64.of_int 0) (F64.of_int 1)
                      (F64.of_int 2) (F64.of_int 3) (F64.dec 5 100)
                      (F64.of_int 300));
          ("HORIZ", F64.measurement (F64.of_int 0) (F64.of_int 1)
                      (F64.of_int 2) (F64.of_int 3) (F64.dec 12 100)
                      (F64.of_int 100))] r = Ok w
       /\ blade ∈ BLADES.
Proof.
  split; [done|].
  destruct (proj1 F64_suggest_weight_spec
              [("HOVER", F64.measurement (F64.of_int 0) (F64.of_int 1)
                           (F64.of_int 2) (F64.of_int 3) (F64.dec 5 100)
                           (F64.of_int 300));
               ("HORIZ", F64.measurement (F64.of_int 0) (F64.of_int 1)
                           (F64.of_int 2) (F64.of_int 3) (F64.dec 12 100)
                           (F64.of_int 100))])
    as (r & w & blade & Hw & _ & Hb & _); [done|].
  by exists r, w, blade.
Defined.

(** C3, as the specification words it, fails in double precision.  With
    an amplitude of 1e308 the quotient [amp / 0.0020] overflows and
    [suggest_weight] raises [OverflowError] in place of an answer.  With
    a phase of 45.00000000000001 the sum [phase + 180.0] rounds to 225.0,
    a tie between BLU and GRN, and BLU is returned, while the exact target
    is nearer to GRN at 270 than to BLU at 180. *)
Lemma F64_suggest_weight_not_exact :
  F64.suggest_weight
    [("GROUND", F64.measurement (F64.of_int 0) (F64.of_int 0) (F64.of_int 0)
                  (F64.of_int 0) (F64.of_int (10 ^ 308)) (F64.of_int 0))]
    = Raise OverflowError
  /\ F64.suggest_weight
       [("GROUND", F64.measurement (F64.of_int 0) (F64.of_int 0)
                     (F64.of_int 0) (F64.of_int 0) (F64.dec 1 100)
                     (F64.dec 4500000000000001 100000000000000))]
     = Ok ("BLU", F64.of_int 5)
  /\ circular_distance
       (F64.to_Q (F64.dec 4500000000000001 100000000000000) + 180) 270
     < circular_distance
         (F64.to_Q (F64.dec 4500000000000001 100000000000000) + 180) 180.
Proof. split_and!; by vm_compute. Qed.

Lemma F64_worst_regime_nonempty meas r :
  F64.worst_regime meas = Ok r -> meas <> [].
Proof. by destruct meas. Qed.

(** C10, as the code has it.  When [suggest_weight] returns on a
    non-empty mapping, no blade has a smaller computed distance to the
    target than the blade returned, and every blade whose computed
    distance equals that of the blade returned comes no earlier in the
    declaration order BLU, GRN, YEL, RED.  The answer does not depend on
    the order of the mapping when one regime has an amplitude strictly
    above all the others.  When the largest amplitude is shared, the
    regime selected follows the order of the mapping, and the blade with
    it: the mapping GROUND (phase 45), HOVER (phase 135), both of
    amplitude 0.10, gets BLU, and GRN when HOVER comes first. *)
Theorem F64_suggest_weight_tie_break :
  (forall meas blade grams,
     meas <> [] -> F64.suggest_weight meas = Ok (blade, grams) ->
     exists r w i,
       F64.worst_regime meas = Ok r
       /\ getitem meas r = Ok w
       /\ BLADES !! i = Some blade
       /\ (forall b', b' ∈ BLADES ->
             F64.lt (F64.dist (F64.target_phase w) (F64.blade_clock b'))
                    (F64.dist (F64.target_phase w) (F64.blade_clock blade))
             = false)
       /\ (forall j b', BLADES !! j = Some b' ->
             SFcompare (F64.dist (F64.target_phase w) (F64.blade_clock b'))
                       (F64.dist (F64.target_phase w) (F64.blade_clock blade))
             = Some Eq ->
             (i <= j)%nat))
  /\ (forall meas meas' r w,
        (forall k, getitem meas k = getitem meas' k) ->
        getitem meas r = Ok w ->
        (forall r' m', r' <> r -> getitem meas r' = Ok m' ->
           F64.lt (F64.amp_ips (F64.balance m'))
                  (F64.amp_ips (F64.balance w)) = true) ->
        F64.suggest_weight meas = F64.suggest_weight meas')
  /\ (F64.suggest_weight
        [("GROUND", F64.measurement (F64.of_int 0) (F64.of_int 0)
                      (F64.of_int 0) (F64.of_int 0) (F64.dec 10 100)
                      (F64.of_int 45));
         ("HOVER", F64.measurement (F64.of_int 0) (F64.of_int 0)
                     (F64.of_int 0) (F64.of_int 0) (F64.dec 10 100)
                     (F64.of_int 135))]
      = Ok ("BLU", F64.of_int 50)
      /\ F64.suggest_weight
           [("HOVER", F64.measurement (F64.of_int 0) (F64.of_int 0)
                        (F64.of_int 0) (F64.of_int 0) (F64.dec 10 100)
                        (F64.of_int 135));
            ("GROUND", F64.measurement (F64.of_int 0) (F64.of_int 0)
                         (F64.of_int 0) (F64.of_int 0) (F64.dec 10 100)
                         (F64.of_int 45))]
         = Ok ("GRN", F64.of_int 50)).
Proof.
  split_and!.
  - intros meas blade grams Hne Hret.
    destruct (F64_suggest_weight_run meas Hne)
      as (r & w & b0 & i & Hr & Hw & _ & Hi & Hle & Hfirst & Hrun).
    rewrite Hrun in Hret.
    destruct (F64.round _) as [k|e]; cbn [bind] in Hret; [|done].
    injection Hret as -> _.
    exists r, w, i. split_and!; [done|done|done|done|].
    intros j b' Hj Htie. destruct (decide (i <= j)%nat) as [|Hlt]; [done|].
    exfalso. apply (Hfirst j b'); [lia|done|done].
  - intros meas meas' r w Hsame Hw Hstrict.
    assert (Hne : meas <> []) by (intros ->; done).
    assert (Hw' : getitem meas' r = Ok w) by (by rewrite <- Hsame).
    assert (Hne' : meas' <> []) by (intros ->; done).
    assert (Hsel : forall ms, (forall k, getitem meas k = getitem ms k) ->
              ms <> [] -> F64.worst_regime ms = Ok r).
    { intros ms Hms Hnms.
      destruct (F64_worst_regime_spec ms Hnms) as (r0 & w0 & Hr0 & Hw0 & Hmax).
      destruct (decide (r0 = r)) as [->|Hdiff]; [done|]. exfalso.
      rewrite <- Hms in Hw0.
      pose proof (Hstrict r0 w0 Hdiff Hw0) as Hlt.
      assert (Hwm : getitem ms r = Ok w) by (by rewrite <- Hms).
      by rewrite (Hmax r w Hwm) in Hlt. }
    rewrite (F64_suggest_weight_body meas Hne),
      (F64_suggest_weight_body meas' Hne').
    rewrite (Hsel meas (fun k => eq_refl) Hne), (Hsel meas' Hsame Hne').
    cbn [bind]. by rewrite Hw, Hw'.
  - by vm_compute.
  - by vm_compute.
Qed.

Lemma F64_suggest_weight_tie_break_witness :
  exists r w i,
    F64.worst_regime
      [("GROUND", F64.measurement (F64.of_int 0) (F64.of_int 1)
                    (F64.of_int 2) (F64.of_int 3) (F64.dec 10 100)
                    (F64.of_int 45))] = Ok r
    /\ getitem
         [("GROUND", F64.measurement (F64.of_int 0) (F64.of_int 1)
                       (F64.of_int 2) (F64.of_int 3) (F64.dec 10 100)
                       (F64.of_int 45))] r = Ok w
    /\ BLADES !! i = Some "BLU".
Proof.
  destruct (proj1 F64_suggest_weight_tie_break
              [("GROUND", F64.measurement (F64.of_int 0) (F64.of_int 1)
                            (F64.of_int 2) (F64.of_int 3) (F64.dec 10 100)
                            (F64.of_int 45))] "BLU" (F64.of_int 50))
    as (r & w & i & Hr & Hw & Hi & _); [done|by vm_compute|].
  by exists r, w, i.
Defined.

(** C10, as the specification words it, fails: the blade returned does
    depend on the order of the mapping.  The two mappings below hold the
    same measurements under the same keys; in both the target is half way
    between two blades; the first gets BLU and the second GRN. *)
Lemma F64_suggest_weight_order_matters :
  (forall k,
     getitem
       [("GROUND", F64.measurement (F64.of_int 0) (F64.of_int 0)
                     (F64.of_int 0) (F64.of_int 0) (F64.dec 10 100)
                     (F64.of_int 45));
        ("HOVER", F64.measurement (F64.of_int 0) (F64.of_int 0)
                    (F64.of_int 0) (F64.of_int 0) (F64.dec 10 100)
                    (F64.of_int 135))] k
     = getitem
         [("HOVER", F64.measurement (F64.of_int 0) (F64.of_int 0)
                      (F64.of_int 0) (F64.of_int 0) (F64.dec 10 100)
                      (F64.of_int 135));
          ("GROUND", F64.measurement (F64.of_int 0) (F64.of_int 0)
                       (F64.of_int 0) (F64.of_int 0) (F64.dec 10 100)
                       (F64.of_int 45))] k)
  /\ F64.suggest_weight
       [("GROUND", F64.measurement (F64.of_int 0) (F64.of_int 0)
                     (F64.of_int 0) (F64.of_int 0) (F64.dec 10 100)
                     (F64.of_int 45));
        ("HOVER", F64.measurement (F64.of_int 0) (F64.of_int 0)
                    (F64.of_int 0) (F64.of_int 0) (F64.dec 10 100)
                    (F64.of_int 135))]
     = Ok ("BLU", F64.of_int 50)
  /\ F64.suggest_weight
       [("HOVER", F64.measurement (F64.of_int 0) (F64.of_int 0)
                    (F64.of_int 0) (F64.of_int 0) (F64.dec 10 100)
                    (F64.of_int 135));
        ("GROUND", F64.measurement (F64.of_int 0) (F64.of_int 0)
                     (F64.of_int 0) (F64.of_int 0) (F64.dec 10 100)
                     (F64.of_int 45))]
     = Ok ("GRN", F64.of_int 50)
  /\ SFcompare (F64.dist (F64.of_int 225) (F64.blade_clock "BLU"))
               (F64.dist (F64.of_int 225) (F64.blade_clock "GRN")) = Some Eq
  /\ SFcompare (F64.dist (F64.of_int 315) (F64.blade_clock "GRN"))
               (F64.dist (F64.of_int 315) (F64.blade_clock "YEL")) = Some Eq.
Proof.
  split_and!; try by vm_compute.
  intros k. simpl.
  destruct (decide (k = "GROUND")) as [E1|?],
           (decide (k = "HOVER")) as [E2|?]; try done.
  rewrite E1 in E2. discriminate E2.
Qed.
